(** * pbrt-v4 digest: the tagged-pointer dispatch substrate, the interaction
      records and the integrator constructors / random walk.

    Shallow embedding of
      - [src/pbrt/util/taggedptr.h]   ([TaggedPointer], [detail::Dispatch]),
      - [pbrt/interaction.h]          ([Interaction] and its two subclasses),
      - [src/pbrt/cpu/integrators.h]  ([Integrator], [RandomWalkIntegrator],
                                       [SPPMIntegrator]).

    Conventions.
      - [uint64_t] and [unsigned int] are [Z] with the wrap-around written out
        ([wrap64], [wrap32]); [int] is [Z].
      - A [DCHECK]/[CHECK] that fails is a fatal abort; a function that can
        abort returns [option], with [None] for the abort.
      - A pointer is its address, a [Z].
      - [Float] and the vector functions of vecmath.h are an interface; where
        a property depends on the arithmetic, the interface is instantiated
        by the real numbers and by IEEE binary64. *)

From Stdlib Require Import ZArith QArith Qabs List Bool Lia.
From Stdlib Require Import Reals Lra.
From Stdlib Require PrimFloat.
Import ListNotations.
Local Open Scope Z_scope.

(* ================================================================== *)
(** ** Machine integers *)

Definition wrap64 (x : Z) : Z := x mod 2 ^ 64.
Definition wrap32 (x : Z) : Z := x mod 2 ^ 32.

(** Conversion of an [unsigned int] value to [int] (two's complement). *)
Definition int_of_unsigned (x : Z) : Z :=
  if x <? 2 ^ 31 then x else x - 2 ^ 32.

(* ================================================================== *)
(** ** TaggedPointer *)

Module TaggedPtr.

(** [static constexpr int tagShift = 57;] and the masks derived from it. *)
Definition tagShift : Z := 57.
Definition tagBits : Z := 64 - tagShift.
Definition tagMask : Z :=
  wrap64 (Z.shiftl (wrap64 (Z.shiftl 1 tagBits) - 1) tagShift).
Definition ptrMask : Z := wrap64 (Z.lnot tagMask).

(** The only data member: [uint64_t bits = 0;]. *)
Record TaggedPointer : Type := mkTP { bits : Z }.

(** [TaggedPointer() = default;] *)
Definition TaggedPointer_default : TaggedPointer := mkTP 0.

(** [TaggedPointer(std::nullptr_t np) {}] : the member initialiser applies. *)
Definition TaggedPointer_nullptr : TaggedPointer := mkTP 0.

(** [TaggedPointer(const TaggedPointer &t) { bits = t.bits; }] *)
Definition TaggedPointer_copy (t : TaggedPointer) : TaggedPointer :=
  mkTP (bits t).

(** [unsigned int Tag() const { return ((bits & tagMask) >> tagShift); }] *)
Definition Tag (h : TaggedPointer) : Z :=
  wrap32 (Z.shiftr (Z.land (bits h) tagMask) tagShift).

(** [void *ptr() { return reinterpret_cast<void *>(bits & ptrMask); }] *)
Definition ptr (h : TaggedPointer) : Z := Z.land (bits h) ptrMask.

(** [explicit operator bool() const { return (bits & ptrMask) != 0; }] *)
Definition to_bool (h : TaggedPointer) : bool :=
  negb (Z.land (bits h) ptrMask =? 0).

(** [bool operator==(const TaggedPointer &tp) const { return bits == tp.bits; }] *)
Definition eqb (h tp : TaggedPointer) : bool := bits h =? bits tp.

(** [bool operator!=(...)] *)
Definition neqb (h tp : TaggedPointer) : bool := negb (bits h =? bits tp).

(** [bool operator<(const TaggedPointer &tp) const { return bits < tp.bits; }] *)
Definition ltb (h tp : TaggedPointer) : bool := bits h <? bits tp.

Section Pack.

(** The enumerated types [Ts...] of one instantiation
    [TaggedPointer<Ts...>], as a list of type names. *)
Variable Ty : Type.
Variable Ty_eq_dec : forall a b : Ty, {a = b} + {a <> b}.
Variable Types : list Ty.

(** Modelled from the spec: [pbrt::IndexOf<T, TypePack<Ts...>>::count]
    (declared in pbrt/util/containers.h, which is not part of the digest):
    the position of [T] in the pack, counted from 0; a type that is not in
    the pack is rejected at compile time ([None]). *)
Fixpoint IndexOf (T : Ty) (pack : list Ty) : option nat :=
  match pack with
  | [] => None
  | U :: Ts =>
      if Ty_eq_dec T U then Some 0%nat
      else option_map S (IndexOf T Ts)
  end.

(** [TypeIndex<T>()].  The [if constexpr] is resolved per instantiation:
    [TypeIndex<std::nullptr_t>()] is 0, any other [T] gives
    [1 + IndexOf<Tp, Types>::count] as an [unsigned int]. *)
Definition TypeIndex_nullptr : Z := 0.

Definition TypeIndex (T : Ty) : option Z :=
  option_map (fun count => wrap32 (1 + Z.of_nat count)) (IndexOf T Types).

(** [template <typename T> TaggedPointer(T *ptr)] *)
Definition TaggedPointer_from_ptr (T : Ty) (iptr : Z) : option TaggedPointer :=
  if Z.land iptr ptrMask =? iptr then            (* DCHECK_EQ(iptr & ptrMask, iptr) *)
    match TypeIndex T with
    | Some type => Some (mkTP (Z.lor iptr (wrap64 (Z.shiftl type tagShift))))
    | None => None
    end
  else None.

(** [static constexpr unsigned int MaxTag() { return sizeof...(Ts); }] *)
Definition MaxTag : Z := wrap32 (Z.of_nat (length Types)).
Definition NumTags : Z := wrap32 (MaxTag + 1).

(** [template <typename T> bool Is() const { return Tag() == TypeIndex<T>(); }] *)
Definition Is (T : Ty) (h : TaggedPointer) : option bool :=
  option_map (fun type => Tag h =? type) (TypeIndex T).

Definition Is_nullptr (h : TaggedPointer) : bool := Tag h =? TypeIndex_nullptr.

(** [template <typename T> T *Cast() { DCHECK(Is<T>()); return ...ptr(); }] *)
Definition Cast (T : Ty) (h : TaggedPointer) : option Z :=
  match Is T h with
  | Some true => Some (ptr h)
  | _ => None
  end.

(** [template <typename T> T *CastOrNullptr()].  The member function is
    written in state-passing style: it returns the pointer (0 for
    [nullptr]) together with the object it was called on. *)
Definition CastOrNullptr (T : Ty) (h : TaggedPointer) : option (Z * TaggedPointer) :=
  match Is T h with
  | Some true => Some (ptr h, h)
  | Some false => Some (0, h)
  | None => None
  end.

(** The handles the public constructors can produce: the default and the
    [nullptr] constructor, the copy constructor (and copy assignment) from a
    handle so produced, and the constructor from a pointer when its check
    passes. *)
Inductive Constructed : TaggedPointer -> Prop :=
| Constructed_default : Constructed TaggedPointer_default
| Constructed_nullptr : Constructed TaggedPointer_nullptr
| Constructed_copy (t : TaggedPointer) :
    Constructed t -> Constructed (TaggedPointer_copy t)
| Constructed_from_ptr (T : Ty) (iptr : Z) (h : TaggedPointer) :
    TaggedPointer_from_ptr T iptr = Some h -> Constructed h.

Section Visitor.

(** The visitor: [func] applied to a pointer of static type [T*] is
    [func T p]; all branches have the same result type [R]. *)
Variable R : Type.
Variable func : Ty -> Z -> R.

(** [detail::Dispatch<F, R, Ts...>(func, ptr, index)]: one overload per
    pack size from 1 to 8 and a recursive one for larger packs. *)
Fixpoint detail_Dispatch (pack : list Ty) (p index : Z) {struct pack} : option R :=
  match pack with
  | [] => None
  | [T] =>
      if 0 =? index then Some (func T p) else None
  | [T0; T1] =>
      if (index >=? 0) && (index <? 2) then
        if index =? 0 then Some (func T0 p) else Some (func T1 p)
      else None
  | [T0; T1; T2] =>
      if (index >=? 0) && (index <? 3) then
        if index =? 0 then Some (func T0 p)
        else if index =? 1 then Some (func T1 p)
        else Some (func T2 p)
      else None
  | [T0; T1; T2; T3] =>
      if (index >=? 0) && (index <? 4) then
        if index =? 0 then Some (func T0 p)
        else if index =? 1 then Some (func T1 p)
        else if index =? 2 then Some (func T2 p)
        else Some (func T3 p)
      else None
  | [T0; T1; T2; T3; T4] =>
      if (index >=? 0) && (index <? 5) then
        if index =? 0 then Some (func T0 p)
        else if index =? 1 then Some (func T1 p)
        else if index =? 2 then Some (func T2 p)
        else if index =? 3 then Some (func T3 p)
        else Some (func T4 p)
      else None
  | [T0; T1; T2; T3; T4; T5] =>
      if (index >=? 0) && (index <? 6) then
        if index =? 0 then Some (func T0 p)
        else if index =? 1 then Some (func T1 p)
        else if index =? 2 then Some (func T2 p)
        else if index =? 3 then Some (func T3 p)
        else if index =? 4 then Some (func T4 p)
        else Some (func T5 p)
      else None
  | [T0; T1; T2; T3; T4; T5; T6] =>
      if (index >=? 0) && (index <? 7) then
        if index =? 0 then Some (func T0 p)
        else if index =? 1 then Some (func T1 p)
        else if index =? 2 then Some (func T2 p)
        else if index =? 3 then Some (func T3 p)
        else if index =? 4 then Some (func T4 p)
        else if index =? 5 then Some (func T5 p)
        else Some (func T6 p)
      else None
  | [T0; T1; T2; T3; T4; T5; T6; T7] =>
      if (index >=? 0) && (index <? 8) then
        if index =? 0 then Some (func T0 p)
        else if index =? 1 then Some (func T1 p)
        else if index =? 2 then Some (func T2 p)
        else if index =? 3 then Some (func T3 p)
        else if index =? 4 then Some (func T4 p)
        else if index =? 5 then Some (func T5 p)
        else if index =? 6 then Some (func T6 p)
        else Some (func T7 p)
      else None
  | T0 :: T1 :: T2 :: T3 :: T4 :: T5 :: T6 :: T7 :: Ts =>
      if index >=? 0 then
        if index =? 0 then Some (func T0 p)
        else if index =? 1 then Some (func T1 p)
        else if index =? 2 then Some (func T2 p)
        else if index =? 3 then Some (func T3 p)
        else if index =? 4 then Some (func T4 p)
        else if index =? 5 then Some (func T5 p)
        else if index =? 6 then Some (func T6 p)
        else if index =? 7 then Some (func T7 p)
        else detail_Dispatch Ts p (index - 8)
      else None
  end.

(** [detail::DispatchCPU<F, R, Ts...>(func, ptr, index)]: the host-only
    family, written out a second time in the source. *)
Fixpoint detail_DispatchCPU (pack : list Ty) (p index : Z) {struct pack} : option R :=
  match pack with
  | [] => None
  | [T] =>
      if 0 =? index then Some (func T p) else None
  | [T0; T1] =>
      if (index >=? 0) && (index <? 2) then
        if index =? 0 then Some (func T0 p) else Some (func T1 p)
      else None
  | [T0; T1; T2] =>
      if (index >=? 0) && (index <? 3) then
        if index =? 0 then Some (func T0 p)
        else if index =? 1 then Some (func T1 p)
        else Some (func T2 p)
      else None
  | [T0; T1; T2; T3] =>
      if (index >=? 0) && (index <? 4) then
        if index =? 0 then Some (func T0 p)
        else if index =? 1 then Some (func T1 p)
        else if index =? 2 then Some (func T2 p)
        else Some (func T3 p)
      else None
  | [T0; T1; T2; T3; T4] =>
      if (index >=? 0) && (index <? 5) then
        if index =? 0 then Some (func T0 p)
        else if index =? 1 then Some (func T1 p)
        else if index =? 2 then Some (func T2 p)
        else if index =? 3 then Some (func T3 p)
        else Some (func T4 p)
      else None
  | [T0; T1; T2; T3; T4; T5] =>
      if (index >=? 0) && (index <? 6) then
        if index =? 0 then Some (func T0 p)
        else if index =? 1 then Some (func T1 p)
        else if index =? 2 then Some (func T2 p)
        else if index =? 3 then Some (func T3 p)
        else if index =? 4 then Some (func T4 p)
        else Some (func T5 p)
      else None
  | [T0; T1; T2; T3; T4; T5; T6] =>
      if (index >=? 0) && (index <? 7) then
        if index =? 0 then Some (func T0 p)
        else if index =? 1 then Some (func T1 p)
        else if index =? 2 then Some (func T2 p)
        else if index =? 3 then Some (func T3 p)
        else if index =? 4 then Some (func T4 p)
        else if index =? 5 then Some (func T5 p)
        else Some (func T6 p)
      else None
  | [T0; T1; T2; T3; T4; T5; T6; T7] =>
      if (index >=? 0) && (index <? 8) then
        if index =? 0 then Some (func T0 p)
        else if index =? 1 then Some (func T1 p)
        else if index =? 2 then Some (func T2 p)
        else if index =? 3 then Some (func T3 p)
        else if index =? 4 then Some (func T4 p)
        else if index =? 5 then Some (func T5 p)
        else if index =? 6 then Some (func T6 p)
        else Some (func T7 p)
      else None
  | T0 :: T1 :: T2 :: T3 :: T4 :: T5 :: T6 :: T7 :: Ts =>
      if index >=? 0 then
        if index =? 0 then Some (func T0 p)
        else if index =? 1 then Some (func T1 p)
        else if index =? 2 then Some (func T2 p)
        else if index =? 3 then Some (func T3 p)
        else if index =? 4 then Some (func T4 p)
        else if index =? 5 then Some (func T5 p)
        else if index =? 6 then Some (func T6 p)
        else if index =? 7 then Some (func T7 p)
        else detail_DispatchCPU Ts p (index - 8)
      else None
  end.

(** [TaggedPointer::Dispatch(F &&func)]:
    [DCHECK(ptr()); return detail::Dispatch<F, R, Ts...>(func, ptr(), Tag() - 1);]
    [Tag() - 1] is computed on [unsigned int] and converted to the [int]
    parameter [index]. *)
Definition Dispatch (h : TaggedPointer) : option R :=
  if ptr h =? 0 then None
  else detail_Dispatch Types (ptr h) (int_of_unsigned (wrap32 (Tag h - 1))).

(** [TaggedPointer::DispatchCPU(F &&func)] *)
Definition DispatchCPU (h : TaggedPointer) : option R :=
  if ptr h =? 0 then None
  else detail_DispatchCPU Types (ptr h) (int_of_unsigned (wrap32 (Tag h - 1))).

End Visitor.

End Pack.

Arguments IndexOf {Ty} Ty_eq_dec T pack.
Arguments TypeIndex {Ty} Ty_eq_dec Types T.
Arguments TaggedPointer_from_ptr {Ty} Ty_eq_dec Types T iptr.
Arguments MaxTag {Ty} Types.
Arguments NumTags {Ty} Types.
Arguments Is {Ty} Ty_eq_dec Types T h.
Arguments Cast {Ty} Ty_eq_dec Types T h.
Arguments CastOrNullptr {Ty} Ty_eq_dec Types T h.
Arguments Constructed {Ty} Ty_eq_dec Types h.
Arguments detail_Dispatch {Ty R} func pack p index.
Arguments detail_DispatchCPU {Ty R} func pack p index.
Arguments Dispatch {Ty} Types {R} func h.
Arguments DispatchCPU {Ty} Types {R} func h.

End TaggedPtr.


(** The handle classes of the renderer are instantiations of
    [TaggedPointer] over their own packs of concrete types. *)
Definition Light := TaggedPtr.TaggedPointer.
Definition Primitive := TaggedPtr.TaggedPointer.
Definition Camera := TaggedPtr.TaggedPointer.
Definition Film := TaggedPtr.TaggedPointer.
Definition Sampler := TaggedPtr.TaggedPointer.
Definition Medium := TaggedPtr.TaggedPointer.
Definition Material := TaggedPtr.TaggedPointer.
Definition PhaseFunction := TaggedPtr.TaggedPointer.

(** [class Light : public TaggedPointer<PointLight, DistantLight, ...>]
    (base/light.h): the names of the pack, in declaration order. *)
Inductive LightClass : Type :=
| PointLight | DistantLight | ProjectionLight | GoniometricLight | SpotLight
| DiffuseAreaLight | UniformInfiniteLight | ImageInfiniteLight
| PortalImageInfiniteLight.

Definition LightClass_eq_dec (a b : LightClass) : {a = b} + {a <> b}.
Proof. decide equality. Defined.

Definition LightTypes : list LightClass :=
  [PointLight; DistantLight; ProjectionLight; GoniometricLight; SpotLight;
   DiffuseAreaLight; UniformInfiniteLight; ImageInfiniteLight;
   PortalImageInfiniteLight].

(** [enum class LightType { DeltaPosition, DeltaDirection, Area, Infinite };] *)
Inductive LightType : Type := DeltaPosition | DeltaDirection | Area | Infinite.

Definition LightType_eqb (a b : LightType) : bool :=
  match a, b with
  | DeltaPosition, DeltaPosition | DeltaDirection, DeltaDirection
  | Area, Area | Infinite, Infinite => true
  | _, _ => false
  end.

(* ================================================================== *)
(** ** Scalars and vectors

    [Float] and the vector types come from pbrt/pbrt.h and
    pbrt/util/vecmath.h, which are not part of the digest.  [Float]
    is [float] or [double] depending on a build flag; the operations on it
    are an interface, so that nothing below depends on rounding. *)

Class FloatOps : Type := {
  Float : Type;
  Float_lit : Z -> Float;                 (* an integer literal, as in [0], [-1], [4] *)
  Float_add : Float -> Float -> Float;
  Float_mul : Float -> Float -> Float;
  Float_div : Float -> Float -> Float;
  Float_neg : Float -> Float;
  Float_neb : Float -> Float -> bool;     (* [a != b] *)
  Float_gtb : Float -> Float -> bool;     (* [a > b] *)
  Pi : Float
}.

Record Tuple2 (T : Type) : Type := mkTuple2 { px : T; py : T }.
Record Tuple3 (T : Type) : Type := mkTuple3 { vx : T; vy : T; vz : T }.
Arguments mkTuple2 {T} _ _.
Arguments px {T} _.
Arguments py {T} _.
Arguments mkTuple3 {T} _ _ _.
Arguments vx {T} _.
Arguments vy {T} _.
Arguments vz {T} _.

(** [Interval]: a value with its error bounds. *)
Record Interval (T : Type) : Type := mkInterval { low : T; high : T }.
Arguments mkInterval {T} _ _.
Arguments low {T} _.
Arguments high {T} _.

Section Vectors.
Context {F : FloatOps}.

Definition Vector3f : Type := Tuple3 Float.
Definition Normal3f : Type := Tuple3 Float.
Definition Point3f : Type := Tuple3 Float.
Definition Point2f : Type := Tuple2 Float.
Definition Point3fi : Type := Tuple3 (Interval Float).

(** Modelled from the spec: value-initialised tuples ([Vector3f()],
    [Normal3f()], [Point2f()], [Point3fi()]) have all components zero. *)
Definition Tuple3_zero : Tuple3 Float :=
  mkTuple3 (Float_lit 0) (Float_lit 0) (Float_lit 0).
Definition Tuple2_zero : Tuple2 Float := mkTuple2 (Float_lit 0) (Float_lit 0).
Definition Point3fi_zero : Point3fi :=
  let i := mkInterval (Float_lit 0) (Float_lit 0) in mkTuple3 i i i.

(** Modelled from the spec: [Point3fi(Point3f p)], a point without error. *)
Definition Point3fi_of_Point3f (p : Point3f) : Point3fi :=
  mkTuple3 (mkInterval (vx p) (vx p)) (mkInterval (vy p) (vy p))
           (mkInterval (vz p) (vz p)).

(** Modelled from the spec: [Normal3f(Vector3f)], the same components. *)
Definition Normal3f_of_Vector3f (v : Vector3f) : Normal3f := v.

(** Modelled from the spec: [Tuple3::operator!=], true when some component
    differs. *)
Definition Tuple3_ne (a b : Tuple3 Float) : bool :=
  Float_neb (vx a) (vx b) || Float_neb (vy a) (vy b) || Float_neb (vz a) (vz b).

(** Modelled from the spec: [Tuple3::operator*=(Float)] and unary minus. *)
Definition Tuple3_scale (a : Tuple3 Float) (s : Float) : Tuple3 Float :=
  mkTuple3 (Float_mul (vx a) s) (Float_mul (vy a) s) (Float_mul (vz a) s).
Definition Tuple3_neg (a : Tuple3 Float) : Tuple3 Float :=
  mkTuple3 (Float_neg (vx a)) (Float_neg (vy a)) (Float_neg (vz a)).

(** Modelled from the spec: [LengthSquared], the sum of the squared
    components; a vector is of unit length when it equals 1. *)
Definition LengthSquared (a : Tuple3 Float) : Float :=
  Float_add (Float_add (Float_mul (vx a) (vx a)) (Float_mul (vy a) (vy a)))
            (Float_mul (vz a) (vz a)).
Definition IsUnitLength (a : Tuple3 Float) : bool :=
  negb (Float_neb (LengthSquared a) (Float_lit 1)).

End Vectors.

(** The remaining vector functions used by the interaction records
    ([Normalize], [Cross], [Dot], [OffsetRayOrigin] of vecmath.h / ray.h) are
    taken as given. *)
Class VecOps (F : FloatOps) : Type := {
  Normalize : Vector3f -> Vector3f;
  Cross : Vector3f -> Vector3f -> Vector3f;
  Dot : Vector3f -> Normal3f -> Float;
  AbsDot : Vector3f -> Normal3f -> Float;
  OffsetRayOrigin_pbrt : Point3fi -> Normal3f -> Vector3f -> Point3f
}.

(** [struct MediumInterface { Medium inside, outside; }] and the memory it
    lives in: a [const MediumInterface *] is an address, 0 for [nullptr]. *)
Record MediumInterface : Type := mkMediumInterface { inside : Medium; outside : Medium }.

(** [RayDifferential(o, d, time, medium)] (ray.h). *)
Record RayDifferential {F : FloatOps} : Type := mkRay {
  ray_o : Point3f; ray_d : Vector3f; ray_time : Float; ray_medium : Medium
}.
Arguments mkRay {F} _ _ _ _.

(* ================================================================== *)
(** ** Interaction, MediumInteraction, SurfaceInteraction *)

Module Intr.
Section Interaction.
Context {F : FloatOps} {V : VecOps F}.

(** [// Interaction Public Members] *)
Record Interaction : Type := mkInteraction {
  pi : Point3fi;
  time : Float;
  wo : Vector3f;
  n : Normal3f;
  uv : Point2f;
  mediumInterface : Z;
  medium : Medium
}.

(** [Interaction() = default;] with the default member initialisers
    [time = 0], [mediumInterface = nullptr], [medium = nullptr]. *)
Definition Interaction_default : Interaction :=
  mkInteraction Point3fi_zero (Float_lit 0) Tuple3_zero Tuple3_zero Tuple2_zero
                0 TaggedPtr.TaggedPointer_nullptr.

(** [Interaction(Point3fi pi, Normal3f n, Point2f uv, Vector3f wo, Float time)
      : pi(pi), n(n), uv(uv), wo(Normalize(wo)), time(time) {}] *)
Definition Interaction_surface (pi0 : Point3fi) (n0 : Normal3f) (uv0 : Point2f)
    (wo0 : Vector3f) (time0 : Float) : Interaction :=
  mkInteraction pi0 time0 (Normalize wo0) n0 uv0 0 TaggedPtr.TaggedPointer_nullptr.

(** [// used by medium ctor]
    [Interaction(Point3f p, Vector3f wo, Float time, Medium medium)
      : pi(p), time(time), wo(wo), medium(medium) {}] *)
Definition Interaction_medium (p : Point3f) (wo0 : Vector3f) (time0 : Float)
    (medium0 : Medium) : Interaction :=
  mkInteraction (Point3fi_of_Point3f p) time0 wo0 Tuple3_zero Tuple2_zero 0 medium0.

(** [Interaction(Point3f p, Normal3f n, Float time, Medium medium)] *)
Definition Interaction_p_n_time_medium (p : Point3f) (n0 : Normal3f) (time0 : Float)
    (medium0 : Medium) : Interaction :=
  mkInteraction (Point3fi_of_Point3f p) time0 Tuple3_zero n0 Tuple2_zero 0 medium0.

(** [Interaction(Point3f p, Point2f uv) : pi(p), uv(uv) {}] *)
Definition Interaction_p_uv (p : Point3f) (uv0 : Point2f) : Interaction :=
  mkInteraction (Point3fi_of_Point3f p) (Float_lit 0) Tuple3_zero Tuple3_zero uv0
                0 TaggedPtr.TaggedPointer_nullptr.

(** [Interaction(const Point3fi &pi, Normal3f n, Float time = 0, Point2f uv = {})] *)
Definition Interaction_pi_n_time_uv (pi0 : Point3fi) (n0 : Normal3f) (time0 : Float)
    (uv0 : Point2f) : Interaction :=
  mkInteraction pi0 time0 Tuple3_zero n0 uv0 0 TaggedPtr.TaggedPointer_nullptr.

(** [Interaction(const Point3fi &pi, Normal3f n, Point2f uv)] *)
Definition Interaction_pi_n_uv (pi0 : Point3fi) (n0 : Normal3f) (uv0 : Point2f)
    : Interaction :=
  mkInteraction pi0 (Float_lit 0) Tuple3_zero n0 uv0 0 TaggedPtr.TaggedPointer_nullptr.

(** [Interaction(Point3f p, Float time, Medium medium)] *)
Definition Interaction_p_time_medium (p : Point3f) (time0 : Float) (medium0 : Medium)
    : Interaction :=
  mkInteraction (Point3fi_of_Point3f p) time0 Tuple3_zero Tuple3_zero Tuple2_zero
                0 medium0.

(** [Interaction(Point3f p, const MediumInterface *mediumInterface)] *)
Definition Interaction_p_mi (p : Point3f) (mi : Z) : Interaction :=
  mkInteraction (Point3fi_of_Point3f p) (Float_lit 0) Tuple3_zero Tuple3_zero
                Tuple2_zero mi TaggedPtr.TaggedPointer_nullptr.

(** [Interaction(Point3f p, Float time, const MediumInterface *mediumInterface)] *)
Definition Interaction_p_time_mi (p : Point3f) (time0 : Float) (mi : Z) : Interaction :=
  mkInteraction (Point3fi_of_Point3f p) time0 Tuple3_zero Tuple3_zero
                Tuple2_zero mi TaggedPtr.TaggedPointer_nullptr.

(** [bool IsSurfaceInteraction() const { return n != Normal3f(0, 0, 0); }] *)
Definition IsSurfaceInteraction (i : Interaction) : bool :=
  Tuple3_ne (n i) (mkTuple3 (Float_lit 0) (Float_lit 0) (Float_lit 0)).

(** [bool IsMediumInteraction() const { return !IsSurfaceInteraction(); }] *)
Definition IsMediumInteraction (i : Interaction) : bool :=
  negb (IsSurfaceInteraction i).

(** [Medium GetMedium(Vector3f w) const]; [deref] reads the
    [MediumInterface] a non-null pointer refers to. *)
Definition GetMedium (deref : Z -> MediumInterface) (i : Interaction) (w : Vector3f)
    : Medium :=
  if negb (mediumInterface i =? 0) then
    if Float_gtb (Dot w (n i)) (Float_lit 0)
    then outside (deref (mediumInterface i))
    else inside (deref (mediumInterface i))
  else medium i.

(** [RayDifferential SpawnRay(Vector3f d) const] *)
Definition SpawnRay (deref : Z -> MediumInterface) (i : Interaction) (d : Vector3f)
    : RayDifferential :=
  mkRay (OffsetRayOrigin_pbrt (pi i) (n i) d) d (time i) (GetMedium deref i d).

(** [class MediumInteraction : public Interaction] *)
Record MediumInteraction : Type := mkMediumInteraction {
  mi_base : Interaction;
  phase : PhaseFunction
}.

(** [MediumInteraction() : phase(nullptr) {}] *)
Definition MediumInteraction_default : MediumInteraction :=
  mkMediumInteraction Interaction_default TaggedPtr.TaggedPointer_nullptr.

(** [MediumInteraction(Point3f p, Vector3f wo, Float time, Medium medium,
                       PhaseFunction phase)
      : Interaction(p, wo, time, medium), phase(phase) {}] *)
Definition MediumInteraction_ctor (p : Point3f) (wo0 : Vector3f) (time0 : Float)
    (medium0 : Medium) (phase0 : PhaseFunction) : MediumInteraction :=
  mkMediumInteraction (Interaction_medium p wo0 time0 medium0) phase0.

(** The anonymous [struct { ... } shading;] *)
Record Shading : Type := mkShading {
  shading_n : Normal3f;
  shading_dpdu : Vector3f; shading_dpdv : Vector3f;
  shading_dndu : Normal3f; shading_dndv : Normal3f
}.

(** [class SurfaceInteraction : public Interaction] *)
Record SurfaceInteraction : Type := mkSurfaceInteraction {
  si_base : Interaction;
  dpdu : Vector3f; dpdv : Vector3f;
  dndu : Normal3f; dndv : Normal3f;
  shading : Shading;
  faceIndex : Z;
  material : Material;
  areaLight : Light;
  dpdx : Vector3f; dpdy : Vector3f;
  dudx : Float; dvdx : Float; dudy : Float; dvdy : Float
}.

Definition set_n (i : Interaction) (n0 : Normal3f) : Interaction :=
  mkInteraction (pi i) (time i) (wo i) n0 (uv i) (mediumInterface i) (medium i).

(** [SurfaceInteraction(Point3fi pi, Point2f uv, Vector3f wo, Vector3f dpdu,
                        Vector3f dpdv, Normal3f dndu, Normal3f dndv, Float time,
                        bool flipNormal)] *)
Definition SurfaceInteraction_ctor (pi0 : Point3fi) (uv0 : Point2f) (wo0 : Vector3f)
    (dpdu0 dpdv0 : Vector3f) (dndu0 dndv0 : Normal3f) (time0 : Float)
    (flipNormal : bool) : SurfaceInteraction :=
  let base0 :=
    Interaction_surface pi0 (Normal3f_of_Vector3f (Normalize (Cross dpdu0 dpdv0)))
                        uv0 wo0 time0 in
  (* Initialize shading geometry from true geometry *)
  let sh0 := mkShading (n base0) dpdu0 dpdv0 dndu0 dndv0 in
  (* Adjust normal based on orientation and handedness *)
  let base1 :=
    if flipNormal then set_n base0 (Tuple3_scale (n base0) (Float_lit (-1)))
    else base0 in
  let sh1 :=
    if flipNormal
    then mkShading (Tuple3_scale (shading_n sh0) (Float_lit (-1)))
                   dpdu0 dpdv0 dndu0 dndv0
    else sh0 in
  mkSurfaceInteraction base1 dpdu0 dpdv0 dndu0 dndv0 sh1 0
    TaggedPtr.TaggedPointer_default TaggedPtr.TaggedPointer_default
    Tuple3_zero Tuple3_zero (Float_lit 0) (Float_lit 0) (Float_lit 0) (Float_lit 0).

(** [SurfaceInteraction(..., bool flipNormal, int faceIndex)] *)
Definition SurfaceInteraction_ctor_face (pi0 : Point3fi) (uv0 : Point2f)
    (wo0 : Vector3f) (dpdu0 dpdv0 : Vector3f) (dndu0 dndv0 : Normal3f)
    (time0 : Float) (flipNormal : bool) (faceIndex0 : Z) : SurfaceInteraction :=
  let s := SurfaceInteraction_ctor pi0 uv0 wo0 dpdu0 dpdv0 dndu0 dndv0 time0
                                   flipNormal in
  mkSurfaceInteraction (si_base s) (dpdu s) (dpdv s) (dndu s) (dndv s) (shading s)
    faceIndex0 (material s) (areaLight s) (dpdx s) (dpdy s)
    (dudx s) (dvdx s) (dudy s) (dvdy s).

(** [Medium GetMedium() const]:
    [if (mediumInterface) DCHECK_EQ(mediumInterface->inside, mediumInterface->outside);
     return mediumInterface ? mediumInterface->inside : medium;] *)
Definition GetMedium0 (deref : Z -> MediumInterface) (i : Interaction)
    : option Medium :=
  if negb (mediumInterface i =? 0) then
    if TaggedPtr.eqb (inside (deref (mediumInterface i)))
                     (outside (deref (mediumInterface i)))
    then Some (inside (deref (mediumInterface i)))
    else None
  else Some (medium i).

Definition set_media (i : Interaction) (mi : Z) (m : Medium) : Interaction :=
  mkInteraction (pi i) (time i) (wo i) (n i) (uv i) mi m.

(** [void SetIntersectionProperties(Material mtl, Light area,
      const MediumInterface *primMediumInterface, Medium rayMedium)].
    [geb] is [>=] on [Float] and [IsMediumTransition] the member function of
    [MediumInterface] (medium.h); the [CHECK_GE] aborts when it fails. *)
Definition SetIntersectionProperties (geb : Float -> Float -> bool)
    (IsMediumTransition : MediumInterface -> bool) (deref : Z -> MediumInterface)
    (s : SurfaceInteraction) (mtl : Material) (area : Light)
    (primMediumInterface : Z) (rayMedium : Medium) : option SurfaceInteraction :=
  if geb (Dot (n (si_base s)) (shading_n (shading s))) (Float_lit 0) then
    (* Set medium properties at surface intersection *)
    let base1 :=
      if negb (primMediumInterface =? 0) &&
         IsMediumTransition (deref primMediumInterface)
      then set_media (si_base s) primMediumInterface (medium (si_base s))
      else set_media (si_base s) (mediumInterface (si_base s)) rayMedium in
    Some (mkSurfaceInteraction base1 (dpdu s) (dpdv s) (dndu s) (dndv s) (shading s)
            (faceIndex s) mtl area (dpdx s) (dpdy s)
            (dudx s) (dvdx s) (dudy s) (dvdy s))
  else None.

End Interaction.
End Intr.

(* ================================================================== *)
(** ** Integrators *)

(** What the integrators call but do not define: the scene aggregate, the
    lights, the film, the sampler, the materials and the spectrum
    arithmetic.  The objects behind the [Sampler] handle and the
    [ScratchBuffer] are mutable; they live in a [Store]. *)
Class SceneOps (F : FloatOps) (V : VecOps F) : Type := {
  Bounds3f : Type;
  Bounds3f_default : Bounds3f;                           (* [Bounds3f()] *)
  Primitive_Bounds : Primitive -> Bounds3f;              (* [aggregate.Bounds()] *)
  Light_Type : Light -> LightType;                       (* [light.Type()] *)
  Bounds2i : Type;
  Camera_GetFilm : Camera -> Film;                       (* [camera.GetFilm()] *)
  Film_PixelBounds : Film -> Bounds2i;                   (* [film.PixelBounds()] *)
  Bounds2i_Area : Bounds2i -> Z;                         (* [bounds.Area()], an [int] *)
  SampledSpectrum : Type;
  SampledWavelengths : Type;
  BSDF : Type;
  Store : Type;
  Spectrum_const : Float -> SampledSpectrum;             (* [SampledSpectrum(c)] *)
  Spectrum_add : SampledSpectrum -> SampledSpectrum -> SampledSpectrum;
  Spectrum_mul : SampledSpectrum -> SampledSpectrum -> SampledSpectrum;
  Spectrum_scale : SampledSpectrum -> Float -> SampledSpectrum;
  Spectrum_div : SampledSpectrum -> Float -> SampledSpectrum;
  Spectrum_to_bool : SampledSpectrum -> bool;            (* [explicit operator bool] *)
  BSDF_to_bool : BSDF -> bool;
  BSDF_f : BSDF -> Vector3f -> Vector3f -> SampledSpectrum;
  Light_Le : Light -> RayDifferential -> SampledWavelengths -> SampledSpectrum;
  Surface_Le : Intr.SurfaceInteraction -> Vector3f -> SampledWavelengths ->
               SampledSpectrum;
  Intersect_aggregate : Primitive -> RayDifferential ->
                        option (Intr.SurfaceInteraction * Float);
  GetBSDF : Intr.SurfaceInteraction -> RayDifferential -> SampledWavelengths ->
            Camera -> Sampler -> Store ->
            BSDF * Intr.SurfaceInteraction * SampledWavelengths * Store;
  Sampler_Get2D : Sampler -> Store -> Point2f * Store;
  SampleUniformSphere : Point2f -> Vector3f;
  MediumInterface_deref : Z -> MediumInterface
}.

Definition INT_MAX : Z := 2 ^ 31 - 1.

Module Integrators.
Section Integrators.
Context {F : FloatOps} {V : VecOps F} {Sc : SceneOps F V}.

(** [struct ShapeIntersection { SurfaceInteraction intr; Float tHit; };] *)
Record ShapeIntersection : Type := mkShapeIntersection {
  intr : Intr.SurfaceInteraction;
  tHit : Float
}.

(** The data members of [class Integrator]. *)
Record Integrator : Type := mkIntegrator {
  aggregate : Primitive;
  lights : list Light;
  infiniteLights : list Light
}.

(** One call [light.Preprocess(sceneBounds)]. *)
Definition PreprocessCall : Type := (Light * Bounds3f)%type.

(** [light.Type() == LightType::Infinite] *)
Definition is_infinite (light : Light) : bool :=
  LightType_eqb (Light_Type light) Infinite.

(** The body of the range-for of the [Integrator] constructor: the state is
    [infiniteLights] and the calls of [Preprocess] made so far. *)
Definition Integrator_visit (sceneBounds : Bounds3f)
    (acc : list Light * list PreprocessCall) (light : Light)
    : list Light * list PreprocessCall :=
  let calls := snd acc ++ [(light, sceneBounds)] in      (* light.Preprocess(sceneBounds) *)
  if is_infinite light
  then (fst acc ++ [light], calls)                       (* infiniteLights.push_back(light) *)
  else (fst acc, calls).

(** [Integrator(Primitive aggregate, std::vector<Light> lights)]: the object
    built and the calls of [Preprocess] it made, in order. *)
Definition Integrator_ctor (aggregate0 : Primitive) (lights0 : list Light)
    : Integrator * list PreprocessCall :=
  let sceneBounds :=
    if TaggedPtr.to_bool aggregate0 then Primitive_Bounds aggregate0
    else Bounds3f_default in
  let r := fold_left (Integrator_visit sceneBounds) lights0 ([], []) in
  (mkIntegrator aggregate0 lights0 (fst r), snd r).

(** [Integrator::Intersect(const Ray &ray, Float tMax = Infinity) const] *)
Definition Intersect (I : Integrator) (ray : RayDifferential)
    : option ShapeIntersection :=
  match Intersect_aggregate (aggregate I) ray with
  | Some (i, t) => Some (mkShapeIntersection i t)
  | None => None
  end.

(** [class RandomWalkIntegrator : public RayIntegrator], with the members of
    [ImageTileIntegrator] it inherits. *)
Record RandomWalkIntegrator : Type := mkRandomWalkIntegrator {
  rw_base : Integrator;
  rw_camera : Camera;
  rw_samplerPrototype : Sampler;
  maxDepth : Z
}.

(** [RandomWalkIntegrator(int maxDepth, Camera camera, Sampler sampler,
                          Primitive aggregate, std::vector<Light> lights)] *)
Definition RandomWalkIntegrator_ctor (maxDepth0 : Z) (camera0 : Camera)
    (sampler0 : Sampler) (aggregate0 : Primitive) (lights0 : list Light)
    : RandomWalkIntegrator * list PreprocessCall :=
  let b := Integrator_ctor aggregate0 lights0 in
  (mkRandomWalkIntegrator (fst b) camera0 sampler0 maxDepth0, snd b).

(** What is mutable during one call of [Li]: [lambda], passed by reference,
    and the store behind the sampler and the scratch buffer. *)
Record WalkState : Type := mkWalkState {
  lambda : SampledWavelengths;
  store : Store
}.

(** The result of a call of [LiRandomWalk]: the radiance, the state left
    behind, and the [depth] argument of every activation of [LiRandomWalk]
    the call made, itself first. *)
Record WalkResult : Type := mkWalkResult {
  radiance : SampledSpectrum;
  final : WalkState;
  activations : list Z
}.

(** [Return emitted light from infinite light sources]:
    [SampledSpectrum Le(0.f); for (Light light : infiniteLights)
       Le += light.Le(ray, lambda);] *)
Definition infinite_Le (I : Integrator) (ray : RayDifferential)
    (lam : SampledWavelengths) : SampledSpectrum :=
  fold_left (fun Le light => Spectrum_add Le (Light_Le light ray lam))
            (infiniteLights I) (Spectrum_const (Float_lit 0)).

(** [1 / (4 * Pi)] *)
Definition uniform_sphere_pdf : Float :=
  Float_div (Float_lit 1) (Float_mul (Float_lit 4) Pi).

(** [RandomWalkIntegrator::LiRandomWalk(ray, lambda, sampler, scratchBuffer,
    depth)].  [fuel] bounds the number of nested activations; [None] is
    returned when it runs out, and when [depth + 1] would overflow [int]. *)
Fixpoint LiRandomWalk (fuel : nat) (I : RandomWalkIntegrator)
    (ray : RayDifferential) (sampler : Sampler) (st : WalkState) (depth : Z)
    {struct fuel} : option WalkResult :=
  match fuel with
  | O => None
  | S fuel' =>
      (* Intersect ray with scene and return if no intersection *)
      match Intersect (rw_base I) ray with
      | None =>
          Some (mkWalkResult (infinite_Le (rw_base I) ray (lambda st)) st [depth])
      | Some si =>
          let isect := intr si in
          (* Get emitted radiance at surface intersection *)
          let wo := Tuple3_neg (ray_d ray) in
          let Le := Surface_Le isect wo (lambda st) in
          (* Terminate random walk if maximum depth has been reached *)
          if depth =? maxDepth I then Some (mkWalkResult Le st [depth])
          else
            (* Compute BSDF at random walk intersection point *)
            let '(bsdf, isect1, lam1, store1) :=
              GetBSDF isect ray (lambda st) (rw_camera I) sampler (store st) in
            if negb (BSDF_to_bool bsdf)
            then Some (mkWalkResult Le (mkWalkState lam1 store1) [depth])
            else
              (* Randomly sample direction leaving surface for random walk *)
              let '(u, store2) := Sampler_Get2D sampler store1 in
              let wp := SampleUniformSphere u in
              (* Evaluate BSDF at surface for sampled direction *)
              let fcos :=
                Spectrum_scale (BSDF_f bsdf wo wp)
                  (AbsDot wp (Intr.shading_n (Intr.shading isect1))) in
              if negb (Spectrum_to_bool fcos)
              then Some (mkWalkResult Le (mkWalkState lam1 store2) [depth])
              else
                (* Recursively trace ray to estimate incident radiance at surface *)
                let ray1 :=
                  Intr.SpawnRay MediumInterface_deref (Intr.si_base isect1) wp in
                if depth + 1 >? INT_MAX then None
                else
                  match LiRandomWalk fuel' I ray1 sampler
                                     (mkWalkState lam1 store2) (depth + 1) with
                  | None => None
                  | Some r =>
                      Some (mkWalkResult
                              (Spectrum_add Le
                                 (Spectrum_div (Spectrum_mul fcos (radiance r))
                                               uniform_sphere_pdf))
                              (final r) (depth :: activations r))
                  end
      end
  end.

(** The depths [d, d+1, ..., d+len-1] of [len] nested activations, the
    first at depth [d]. *)
Definition consecutive_from (d : Z) (len : nat) : list Z :=
  map (fun i => d + Z.of_nat i) (seq 0 len).

(** Whether a walk that sees [ray] in state [st] goes on, if its depth
    allows: the ray hits a surface, [GetBSDF] yields a BSDF and the sampled
    direction has a non-zero [fcos]. *)
Definition scatters (I : RandomWalkIntegrator) (sampler : Sampler)
    (ray : RayDifferential) (st : WalkState) : bool :=
  match Intersect (rw_base I) ray with
  | None => false
  | Some si =>
      let '(bsdf, isect1, lam1, store1) :=
        GetBSDF (intr si) ray (lambda st) (rw_camera I) sampler (store st) in
      let '(u, store2) := Sampler_Get2D sampler store1 in
      BSDF_to_bool bsdf &&
      Spectrum_to_bool
        (Spectrum_scale
           (BSDF_f bsdf (Tuple3_neg (ray_d ray)) (SampleUniformSphere u))
           (AbsDot (SampleUniformSphere u) (Intr.shading_n (Intr.shading isect1))))
  end.

(** [RandomWalkIntegrator::Li]: [visibleSurface] is ignored. *)
Definition Li (fuel : nat) (I : RandomWalkIntegrator) (ray : RayDifferential)
    (sampler : Sampler) (st : WalkState) : option WalkResult :=
  LiRandomWalk fuel I ray sampler st 0.

(** [class SPPMIntegrator : public Integrator] *)
Record SPPMIntegrator : Type := mkSPPMIntegrator {
  sppm_base : Integrator;
  sppm_camera : Camera;
  initialSearchRadius : Float;
  sppm_samplerPrototype : Sampler;
  digitPermutationsSeed : Z;
  sppm_maxDepth : Z;
  photonsPerIteration : Z;
  colorSpace : Z
}.

(** [SPPMIntegrator(Camera camera, Sampler sampler, Primitive aggregate,
                    std::vector<Light> lights, int photonsPerIteration,
                    int maxDepth, Float initialSearchRadius, int seed,
                    const RGBColorSpace *colorSpace)] *)
Definition SPPMIntegrator_ctor (camera0 : Camera) (sampler0 : Sampler)
    (aggregate0 : Primitive) (lights0 : list Light) (photonsPerIteration0 : Z)
    (maxDepth0 : Z) (initialSearchRadius0 : Float) (seed : Z) (colorSpace0 : Z)
    : SPPMIntegrator * list PreprocessCall :=
  let b := Integrator_ctor aggregate0 lights0 in
  (mkSPPMIntegrator (fst b) camera0 initialSearchRadius0 sampler0 seed maxDepth0
     (if photonsPerIteration0 >? 0 then photonsPerIteration0
      else Bounds2i_Area (Film_PixelBounds (Camera_GetFilm camera0)))
     colorSpace0,
   snd b).

End Integrators.
End Integrators.

(* ================================================================== *)
(** ** BxDF flags (base/bxdf.h) *)

Module BxDF.

(** Conversion of an [int] to [bool]. *)
Definition bool_of_int (i : Z) : bool := negb (i =? 0).

(** [enum class BxDFReflTransFlags], by its underlying [int]. *)
Module ReflTrans.
Definition Unset : Z := 0.
Definition Reflection : Z := Z.shiftl 1 0.
Definition Transmission : Z := Z.shiftl 1 1.
Definition All : Z := Z.lor Reflection Transmission.
End ReflTrans.

(** [BxDFReflTransFlags operator|(a, b)], [int operator&(a, b)] and
    [operator|=]. *)
Definition ReflTrans_or (a b : Z) : Z := Z.lor a b.
Definition ReflTrans_and (a b : Z) : Z := Z.land a b.
Definition ReflTrans_or_assign (a b : Z) : Z := Z.lor a b.

(** [enum BxDFFlags] *)
Definition Unset : Z := 0.
Definition Reflection : Z := Z.shiftl 1 0.
Definition Transmission : Z := Z.shiftl 1 1.
Definition Diffuse : Z := Z.shiftl 1 2.
Definition Glossy : Z := Z.shiftl 1 3.
Definition Specular : Z := Z.shiftl 1 4.
(* Composite _BxDFFlags_ definitions *)
Definition DiffuseReflection : Z := Z.lor Diffuse Reflection.
Definition DiffuseTransmission : Z := Z.lor Diffuse Transmission.
Definition GlossyReflection : Z := Z.lor Glossy Reflection.
Definition GlossyTransmission : Z := Z.lor Glossy Transmission.
Definition SpecularReflection : Z := Z.lor Specular Reflection.
Definition SpecularTransmission : Z := Z.lor Specular Transmission.
Definition All : Z :=
  Z.lor (Z.lor (Z.lor (Z.lor Diffuse Glossy) Specular) Reflection) Transmission.

(** [BxDFFlags operator|(BxDFFlags a, BxDFFlags b)] *)
Definition or (a b : Z) : Z := Z.lor a b.
(** [int operator&(BxDFFlags a, BxDFFlags b)] *)
Definition and (a b : Z) : Z := Z.land a b.
(** [int operator&(BxDFFlags a, BxDFReflTransFlags b)] *)
Definition and_ReflTrans (a b : Z) : Z := Z.land a b.
(** [BxDFFlags &operator|=(BxDFFlags &a, BxDFFlags b)]: the new value of [a]. *)
Definition or_assign (a b : Z) : Z := Z.lor a b.

(* BxDFFlags Inline Functions *)
Definition IsReflective (f : Z) : bool := bool_of_int (and f Reflection).
Definition IsTransmissive (f : Z) : bool := bool_of_int (and f Transmission).
Definition IsDiffuse (f : Z) : bool := bool_of_int (and f Diffuse).
Definition IsGlossy (f : Z) : bool := bool_of_int (and f Glossy).
Definition IsSpecular (f : Z) : bool := bool_of_int (and f Specular).
Definition IsNonSpecular (f : Z) : bool := bool_of_int (and f (or Diffuse Glossy)).

(** The flags value with the given answers to the five basic tests. *)
Definition of_tests (r t d g s : bool) : Z :=
  or (or (or (or (if r then Reflection else Unset)
                 (if t then Transmission else Unset))
             (if d then Diffuse else Unset))
         (if g then Glossy else Unset))
     (if s then Specular else Unset).

(** [enum class TransportMode { Radiance, Importance };] *)
Inductive TransportMode : Type := Radiance | Importance.

(** [TransportMode operator!(TransportMode mode)] *)
Definition TransportMode_not (mode : TransportMode) : TransportMode :=
  match mode with
  | Radiance => Importance
  | Importance => Radiance
  end.

End BxDF.

(* ================================================================== *)
(** ** Cameras (base/camera.h, cameras.h) *)

Module Cameras.

(** [class Camera : public TaggedPointer<PerspectiveCamera,
      OrthographicCamera, SphericalCamera, RealisticCamera>] *)
Inductive CameraClass : Type :=
| PerspectiveCamera | OrthographicCamera | SphericalCamera | RealisticCamera.

Definition CameraClass_eq_dec (a b : CameraClass) : {a = b} + {a <> b}.
Proof. decide equality. Defined.

Definition CameraTypes : list CameraClass :=
  [PerspectiveCamera; OrthographicCamera; SphericalCamera; RealisticCamera].

Section CameraBase.
Context {F : FloatOps}.
Variable CameraTransform : Type.

(** [// CameraBase Protected Members] *)
Record CameraBase : Type := mkCameraBase {
  cameraTransform : CameraTransform;
  shutterOpen : Float;
  shutterClose : Float;
  film : Film;
  cb_medium : Medium;
  minPosDifferentialX : Vector3f;
  minPosDifferentialY : Vector3f;
  minDirDifferentialX : Vector3f;
  minDirDifferentialY : Vector3f
}.

(** [Film GetFilm() const { return film; }] *)
Definition CameraBase_GetFilm (c : CameraBase) : Film := film c.

(** [const CameraTransform &GetCameraTransform() const] *)
Definition CameraBase_GetCameraTransform (c : CameraBase) : CameraTransform :=
  cameraTransform c.

(** [Film Camera::GetFilm() const]:
    [auto getfilm = [&](auto ptr) { return ptr->GetFilm(); };
     return Dispatch(getfilm);]
    None of the four camera classes redefines [GetFilm]; [at p] is the
    [CameraBase] part of the camera object at address [p]. *)
Definition Camera_GetFilm (at_ : Z -> CameraBase) (camera : Camera) : option Film :=
  TaggedPtr.Dispatch CameraTypes (fun _ p => CameraBase_GetFilm (at_ p)) camera.

(** [const CameraTransform &Camera::GetCameraTransform() const] *)
Definition Camera_GetCameraTransform (at_ : Z -> CameraBase) (camera : Camera)
    : option CameraTransform :=
  TaggedPtr.Dispatch CameraTypes
    (fun _ p => CameraBase_GetCameraTransform (at_ p)) camera.

End CameraBase.

Arguments mkCameraBase {F CameraTransform} _ _ _ _ _ _ _ _ _.
Arguments film {F CameraTransform} _.
Arguments cameraTransform {F CameraTransform} _.
Arguments Camera_GetFilm {F CameraTransform} at_ camera.
Arguments Camera_GetCameraTransform {F CameraTransform} at_ camera.

End Cameras.

(* ================================================================== *)
(** ** A test scene

    A small instance of the interfaces above, on which the definitions can be
    evaluated: rational scalars, a floor at [z = 0] that every ray going down
    hits and every ray going up misses, and a sampler that always sends the
    walk straight up. *)

Module TestScene.

#[export] Instance RatFloat : FloatOps := {|
  Float := Q;
  Float_lit := inject_Z;
  Float_add := Qplus;
  Float_mul := Qmult;
  Float_div := Qdiv;
  Float_neg := Qopp;
  Float_neb := fun a b => negb (Qeq_bool a b);
  Float_gtb := fun a b => negb (Qle_bool a b);
  Pi := 3 # 1
|}.

Definition Qsgn (a : Q) : Q := inject_Z (Z.sgn (Qnum a)).
Definition Qdot (a b : Tuple3 Q) : Q :=
  Qred (vx a * vx b + vy a * vy b + vz a * vz b)%Q.

(** [Normalize] is exact on the axis-aligned vectors the scene uses. *)
#[export] Instance RatVec : VecOps RatFloat := {|
  Normalize := fun v => mkTuple3 (Qsgn (vx v)) (Qsgn (vy v)) (Qsgn (vz v));
  Cross := fun a b =>
    mkTuple3 (Qred (vy a * vz b - vz a * vy b)) (Qred (vz a * vx b - vx a * vz b))
             (Qred (vx a * vy b - vy a * vx b));
  Dot := Qdot;
  AbsDot := fun a b => Qabs (Qdot a b);
  OffsetRayOrigin_pbrt := fun p _ _ => mkTuple3 (low (vx p)) (low (vy p)) (low (vz p))
|}.

(** The floor where a ray from [o] lands. *)
Definition floor_hit (ray : RayDifferential) : Intr.SurfaceInteraction :=
  Intr.SurfaceInteraction_ctor
    (Point3fi_of_Point3f (mkTuple3 (vx (ray_o ray)) (vy (ray_o ray)) 0%Q))
    (mkTuple2 0%Q 0%Q) (Tuple3_neg (ray_d ray))
    (mkTuple3 1%Q 0%Q 0%Q) (mkTuple3 0%Q 1%Q 0%Q) Tuple3_zero Tuple3_zero 0%Q false.

(** The kind of a light is that of its concrete class, read off the tag. *)
Definition kind_of_tag (tag : Z) : LightType :=
  if tag =? 2 then DeltaDirection
  else if tag =? 6 then Area
  else if (7 <=? tag) && (tag <=? 9) then Infinite
  else DeltaPosition.

(** The floor emits 5 where [x < 0] and has no material where [y < 0]; an
    infinite light emits its address. *)
#[export] Instance Floor : SceneOps RatFloat RatVec := {|
  Bounds3f := Z;
  Bounds3f_default := 0;
  Primitive_Bounds := fun _ => 100;
  Light_Type := fun l => kind_of_tag (TaggedPtr.Tag l);
  Bounds2i := Z * Z;
  Camera_GetFilm := fun c => c;
  Film_PixelBounds := fun _ => (640, 480);
  Bounds2i_Area := fun b => fst b * snd b;
  SampledSpectrum := Q;
  SampledWavelengths := unit;
  BSDF := Q;
  Store := nat;
  Spectrum_const := fun c => c;
  Spectrum_add := fun a b => Qred (a + b);
  Spectrum_mul := fun a b => Qred (a * b);
  Spectrum_scale := fun a b => Qred (a * b);
  Spectrum_div := fun a b => Qred (a / b);
  Spectrum_to_bool := fun s => negb (Qeq_bool s 0%Q);
  BSDF_to_bool := fun b => negb (Qeq_bool b 0%Q);
  BSDF_f := fun b _ _ => b;
  Light_Le := fun l _ _ => inject_Z (TaggedPtr.ptr l);
  Surface_Le := fun si _ _ =>
    if Qle_bool 0%Q (low (vx (Intr.pi (Intr.si_base si)))) then 0%Q else 5%Q;
  Intersect_aggregate := fun _ ray =>
    if Qle_bool (vz (ray_d ray)) 0%Q then Some (floor_hit ray, 1%Q) else None;
  GetBSDF := fun si _ lam _ _ st =>
    (if Qle_bool 0%Q (low (vy (Intr.pi (Intr.si_base si)))) then 1%Q else 0%Q,
     si, lam, st);
  Sampler_Get2D := fun _ st => (mkTuple2 0%Q 0%Q, S st);
  SampleUniformSphere := fun _ => mkTuple3 0%Q 0%Q 1%Q;
  MediumInterface_deref := fun _ =>
    mkMediumInterface TaggedPtr.TaggedPointer_nullptr TaggedPtr.TaggedPointer_nullptr
|}.

(** Three lights: a point light, and two infinite lights. *)
Definition lights3 : list Light :=
  [TaggedPtr.mkTP (1 * 2 ^ 57 + 16); TaggedPtr.mkTP (7 * 2 ^ 57 + 32);
   TaggedPtr.mkTP (8 * 2 ^ 57 + 48)].

Definition scene : Primitive := TaggedPtr.mkTP (1 * 2 ^ 57 + 1024).
Definition camera : Camera := TaggedPtr.mkTP (1 * 2 ^ 57 + 2048).
Definition sampler : Sampler := TaggedPtr.mkTP (2 * 2 ^ 57 + 4096).

Definition walker (maxDepth0 : Z) : Integrators.RandomWalkIntegrator :=
  fst (Integrators.RandomWalkIntegrator_ctor maxDepth0 camera sampler scene lights3).

Definition ray_up : RayDifferential :=
  mkRay (mkTuple3 0%Q 0%Q 1%Q) (mkTuple3 0%Q 0%Q 1%Q) 0%Q
        TaggedPtr.TaggedPointer_nullptr.
Definition ray_down (x y : Z) : RayDifferential :=
  mkRay (mkTuple3 (inject_Z x) (inject_Z y) 1%Q) (mkTuple3 0%Q 0%Q (-1)%Q) 0%Q
        TaggedPtr.TaggedPointer_nullptr.

Definition start : Integrators.WalkState := Integrators.mkWalkState tt 0%nat.

End TestScene.

(* ================================================================== *)
(** ** A closed test scene

    The test scene again, but with the floor above as well: every ray hits a
    surface that has a material, and the walk is sent on with a non-zero
    contribution. *)

Module TestBox.
Import TestScene.

#[export] Instance Box : SceneOps TestScene.RatFloat TestScene.RatVec := {|
  Bounds3f := Z;
  Bounds3f_default := 0;
  Primitive_Bounds := fun _ => 100;
  Light_Type := fun l => TestScene.kind_of_tag (TaggedPtr.Tag l);
  Bounds2i := Z * Z;
  Camera_GetFilm := fun c => c;
  Film_PixelBounds := fun _ => (640, 480);
  Bounds2i_Area := fun b => fst b * snd b;
  SampledSpectrum := Q;
  SampledWavelengths := unit;
  BSDF := Q;
  Store := nat;
  Spectrum_const := fun c => c;
  Spectrum_add := fun a b => Qred (a + b);
  Spectrum_mul := fun a b => Qred (a * b);
  Spectrum_scale := fun a b => Qred (a * b);
  Spectrum_div := fun a b => Qred (a / b);
  Spectrum_to_bool := fun s => negb (Qeq_bool s 0%Q);
  BSDF_to_bool := fun b => negb (Qeq_bool b 0%Q);
  BSDF_f := fun b _ _ => b;
  Light_Le := fun l _ _ => inject_Z (TaggedPtr.ptr l);
  Surface_Le := fun _ _ _ => 1%Q;
  Intersect_aggregate := fun _ ray => Some (TestScene.floor_hit ray, 1%Q);
  GetBSDF := fun si _ lam _ _ st => (1%Q, si, lam, st);
  Sampler_Get2D := fun _ st => (mkTuple2 0%Q 0%Q, S st);
  SampleUniformSphere := fun _ => mkTuple3 0%Q 0%Q 1%Q;
  MediumInterface_deref := fun _ =>
    mkMediumInterface TaggedPtr.TaggedPointer_nullptr TaggedPtr.TaggedPointer_nullptr
|}.

Definition start : @Integrators.WalkState _ _ Box :=
  Integrators.mkWalkState tt 0%nat.

(** The memory of camera objects: every camera has the film at address
    512 (an [RGBFilm]) and the shutter interval [[0, 1]]. *)
Definition camera_at (p : Z) : @Cameras.CameraBase RatFloat unit :=
  Cameras.mkCameraBase tt 0%Q 1%Q (TaggedPtr.mkTP (2 ^ 57 + 512))
    TaggedPtr.TaggedPointer_nullptr Tuple3_zero Tuple3_zero Tuple3_zero Tuple3_zero.

End TestBox.

(* ================================================================== *)
(** ** What the interaction records rely on in the scalars

    The classification of an interaction and the length of its stored
    direction are decided by [Normalize] and by [!=] on [Float], both of
    vecmath.h.  The four properties below are what the records rely on;
    the first three hold of IEEE arithmetic as well as of exact arithmetic,
    the last one of exact arithmetic only. *)

(** [0 != 0] is false. *)
Definition zero_equals_zero (F : FloatOps) : Prop :=
  Float_neb (Float_lit 0) (Float_lit 0) = false.

(** [x * -1 != 0] exactly when [x != 0]. *)
Definition negation_keeps_nonzero (F : FloatOps) : Prop :=
  forall x : Float,
    Float_neb (Float_mul x (Float_lit (-1))) (Float_lit 0)
    = Float_neb x (Float_lit 0).

(** A vector of unit length differs from the zero vector. *)
Definition unit_vectors_are_nonzero (F : FloatOps) : Prop :=
  forall v : Vector3f, IsUnitLength v = true -> Tuple3_ne v Tuple3_zero = true.

(** Modelled from the spec: what [Normalize] promises, a vector of unit
    length for every argument that differs from the zero vector. *)
Definition Normalize_returns_unit (F : FloatOps) (V : VecOps F) : Prop :=
  forall v : Vector3f,
    Tuple3_ne v Tuple3_zero = true -> IsUnitLength (Normalize v) = true.

(* ================================================================== *)
(** ** Exact arithmetic

    Modelled from the spec: [Float] as the real numbers, and the vector
    functions of vecmath.h without rounding: [Normalize(v)] is [v / Length(v)]
    with [Length(v) = sqrt(LengthSquared(v))]. *)

Module ExactModel.

#[export] Instance RealFloat : FloatOps := {|
  Float := R;
  Float_lit := IZR;
  Float_add := Rplus;
  Float_mul := Rmult;
  Float_div := Rdiv;
  Float_neg := Ropp;
  Float_neb := fun a b => if Req_dec_T a b then false else true;
  Float_gtb := fun a b => if Rlt_dec b a then true else false;
  Pi := PI
|}.

Definition Rdot (a b : Tuple3 R) : R :=
  (vx a * vx b + vy a * vy b + vz a * vz b)%R.

#[export] Instance RealVec : VecOps RealFloat := {|
  Normalize := fun v =>
    let l := sqrt (LengthSquared v) in
    mkTuple3 (vx v / l)%R (vy v / l)%R (vz v / l)%R;
  Cross := fun a b =>
    mkTuple3 (vy a * vz b - vz a * vy b)%R (vz a * vx b - vx a * vz b)%R
             (vx a * vy b - vy a * vx b)%R;
  Dot := Rdot;
  AbsDot := fun a b => Rabs (Rdot a b);
  OffsetRayOrigin_pbrt := fun p _ _ => mkTuple3 (low (vx p)) (low (vy p)) (low (vz p))
|}.

End ExactModel.

(* ================================================================== *)
(** ** IEEE double precision

    Modelled from the spec: [Float] as IEEE-754 binary64, the [double] of a
    build with [PBRT_FLOAT_AS_DOUBLE], with the vector functions of vecmath.h
    computed in that arithmetic: [Normalize(v)] is [v / Length(v)] with
    [Length(v) = std::sqrt(LengthSquared(v))], and [a != b] is false for
    equal numbers, true as soon as one side is a NaN. *)

Module DoubleModel.

(** An integer literal as a [double]; exact below [2 ^ 53] and on the powers
    of two. *)
Fixpoint float_of_pos (p : positive) : PrimFloat.float :=
  match p with
  | xH => PrimFloat.one
  | xO q => PrimFloat.mul PrimFloat.two (float_of_pos q)
  | xI q => PrimFloat.add (PrimFloat.mul PrimFloat.two (float_of_pos q)) PrimFloat.one
  end.

Definition float_of_Z (z : Z) : PrimFloat.float :=
  match z with
  | Z0 => PrimFloat.zero
  | Zpos p => float_of_pos p
  | Zneg p => PrimFloat.opp (float_of_pos p)
  end.

#[export] Instance DoubleFloat : FloatOps := {|
  Float := PrimFloat.float;
  Float_lit := float_of_Z;
  Float_add := PrimFloat.add;
  Float_mul := PrimFloat.mul;
  Float_div := PrimFloat.div;
  Float_neg := PrimFloat.opp;
  Float_neb := fun a b => negb (PrimFloat.eqb a b);
  Float_gtb := fun a b => PrimFloat.ltb b a;
  (* the double nearest to pi, 884279719003555 / 2^48 *)
  Pi := PrimFloat.div (float_of_Z 884279719003555) (float_of_Z (2 ^ 48))
|}.

Definition dot (a b : Tuple3 PrimFloat.float) : PrimFloat.float :=
  PrimFloat.add
    (PrimFloat.add (PrimFloat.mul (vx a) (vx b)) (PrimFloat.mul (vy a) (vy b)))
    (PrimFloat.mul (vz a) (vz b)).

#[export] Instance DoubleVec : VecOps DoubleFloat := {|
  Normalize := fun v =>
    let l := PrimFloat.sqrt (LengthSquared v) in
    mkTuple3 (PrimFloat.div (vx v) l) (PrimFloat.div (vy v) l)
             (PrimFloat.div (vz v) l);
  Cross := fun a b =>
    mkTuple3
      (PrimFloat.sub (PrimFloat.mul (vy a) (vz b)) (PrimFloat.mul (vz a) (vy b)))
      (PrimFloat.sub (PrimFloat.mul (vz a) (vx b)) (PrimFloat.mul (vx a) (vz b)))
      (PrimFloat.sub (PrimFloat.mul (vx a) (vy b)) (PrimFloat.mul (vy a) (vx b)));
  Dot := dot;
  AbsDot := fun a b => PrimFloat.abs (dot a b);
  OffsetRayOrigin_pbrt := fun p _ _ => mkTuple3 (low (vx p)) (low (vy p)) (low (vz p))
|}.

(** Two tangents of length [2 ^ 400] along the x and the y axis: their cross
    product is [(0, 0, 2 ^ 800)], whose squared length is beyond the range of
    a [double]. *)
Definition huge : PrimFloat.float := float_of_Z (2 ^ 400).
Definition huge_dpdu : @Vector3f DoubleFloat :=
  mkTuple3 huge PrimFloat.zero PrimFloat.zero.
Definition huge_dpdv : @Vector3f DoubleFloat :=
  mkTuple3 PrimFloat.zero huge PrimFloat.zero.

(** The surface interaction of a patch with these tangents, seen from
    above. *)
Definition huge_patch (flipNormal : bool) : Intr.SurfaceInteraction :=
  Intr.SurfaceInteraction_ctor Point3fi_zero Tuple2_zero
    (mkTuple3 PrimFloat.zero PrimFloat.zero PrimFloat.one)
    huge_dpdu huge_dpdv Tuple3_zero Tuple3_zero PrimFloat.zero flipNormal.

(** The floor where a ray from [o] lands. *)
Definition floor_hit (ray : RayDifferential) : Intr.SurfaceInteraction :=
  Intr.SurfaceInteraction_ctor
    (Point3fi_of_Point3f (mkTuple3 (vx (ray_o ray)) (vy (ray_o ray)) PrimFloat.zero))
    Tuple2_zero (Tuple3_neg (ray_d ray))
    (mkTuple3 PrimFloat.one PrimFloat.zero PrimFloat.zero)
    (mkTuple3 PrimFloat.zero PrimFloat.one PrimFloat.zero)
    Tuple3_zero Tuple3_zero PrimFloat.zero false.

(** A floor lit from within: a spectrum is one [double]; the floor is an
    area light whose radiance is 5 where [x >= 0], and [2 ^ 600] scaled by
    [2 ^ 600] where [x < 0]; it has no material where [y < 0], and elsewhere
    a material whose BSDF has the value [y], black along [y = 0].  A BSDF
    handle is [None] when it is empty. *)
#[export] Instance Lamp : SceneOps DoubleFloat DoubleVec := {|
  Bounds3f := Z;
  Bounds3f_default := 0;
  Primitive_Bounds := fun _ => 100;
  Light_Type := fun _ => Area;
  Bounds2i := Z * Z;
  Camera_GetFilm := fun c => c;
  Film_PixelBounds := fun _ => (640, 480);
  Bounds2i_Area := fun b => fst b * snd b;
  SampledSpectrum := PrimFloat.float;
  SampledWavelengths := unit;
  BSDF := option PrimFloat.float;
  Store := nat;
  Spectrum_const := fun c => c;
  Spectrum_add := PrimFloat.add;
  Spectrum_mul := PrimFloat.mul;
  Spectrum_scale := PrimFloat.mul;
  Spectrum_div := PrimFloat.div;
  Spectrum_to_bool := fun s => negb (PrimFloat.eqb s PrimFloat.zero);
  BSDF_to_bool := fun b => match b with Some _ => true | None => false end;
  BSDF_f := fun b _ _ => match b with Some a => a | None => PrimFloat.zero end;
  Light_Le := fun _ _ _ => PrimFloat.zero;
  Surface_Le := fun si _ _ =>
    if PrimFloat.ltb (low (vx (Intr.pi (Intr.si_base si)))) PrimFloat.zero
    then PrimFloat.mul (float_of_Z (2 ^ 600)) (float_of_Z (2 ^ 600))
    else float_of_Z 5;
  Intersect_aggregate := fun _ ray =>
    if PrimFloat.leb (vz (ray_d ray)) PrimFloat.zero
    then Some (floor_hit ray, PrimFloat.one) else None;
  GetBSDF := fun si _ lam _ _ st =>
    (if PrimFloat.ltb (low (vy (Intr.pi (Intr.si_base si)))) PrimFloat.zero
     then None else Some (low (vy (Intr.pi (Intr.si_base si)))),
     si, lam, st);
  Sampler_Get2D := fun _ st => (Tuple2_zero, S st);
  SampleUniformSphere := fun _ => mkTuple3 PrimFloat.zero PrimFloat.zero PrimFloat.one;
  MediumInterface_deref := fun _ =>
    mkMediumInterface TaggedPtr.TaggedPointer_nullptr TaggedPtr.TaggedPointer_nullptr
|}.

Definition walker (maxDepth0 : Z) : Integrators.RandomWalkIntegrator :=
  fst (Integrators.RandomWalkIntegrator_ctor maxDepth0 TestScene.camera
         TestScene.sampler TestScene.scene []).

Definition ray_down (x y : Z) : RayDifferential :=
  mkRay (mkTuple3 (float_of_Z x) (float_of_Z y) PrimFloat.one)
        (mkTuple3 PrimFloat.zero PrimFloat.zero (float_of_Z (-1))) PrimFloat.zero
        TaggedPtr.TaggedPointer_nullptr.

Definition start : Integrators.WalkState := Integrators.mkWalkState tt 0%nat.

End DoubleModel.

(* ================================================================== *)
(** * Properties of the tagged pointer *)

Import TaggedPtr.

Lemma tagMask_shape : tagMask = Z.shiftl (Z.ones 7) 57.
Proof. reflexivity. Qed.

Lemma ptrMask_shape : ptrMask = Z.ones 57.
Proof. reflexivity. Qed.

(** The pointer field is the low 57 bits. *)
Lemma ptr_mod (h : TaggedPointer) : ptr h = bits h mod 2 ^ 57.
Proof.
  unfold ptr. rewrite ptrMask_shape. apply Z.land_ones. lia.
Qed.

(** The tag is the next 7 bits. *)
Lemma Tag_div_mod (h : TaggedPointer) : Tag h = (bits h / 2 ^ 57) mod 2 ^ 7.
Proof.
  unfold Tag, tagShift. rewrite tagMask_shape.
  rewrite Z.shiftr_land, Z.shiftr_shiftl_l by lia.
  replace (57 - 57) with 0 by lia. rewrite Z.shiftl_0_r.
  rewrite Z.land_ones, Z.shiftr_div_pow2 by lia.
  unfold wrap32. apply Z.mod_small.
  pose proof (Z.mod_pos_bound (bits h / 2 ^ 57) (2 ^ 7)). lia.
Qed.

Lemma Tag_range (h : TaggedPointer) : 0 <= Tag h < 128.
Proof.
  rewrite Tag_div_mod. change 128 with (2 ^ 7). apply Z.mod_pos_bound. lia.
Qed.

(** A pointer passes the constructor's check exactly when it fits 57 bits. *)
Lemma fits_ptrMask (iptr : Z) :
  (Z.land iptr ptrMask =? iptr) = true <-> 0 <= iptr < 2 ^ 57.
Proof.
  rewrite ptrMask_shape, Z.land_ones, Z.eqb_eq by lia. split; intros H.
  - rewrite <- H. apply Z.mod_pos_bound. lia.
  - apply Z.mod_small. exact H.
Qed.

(** Or-ing a tag field onto a pointer that fits is an addition. *)
Lemma lor_tag_field (iptr t : Z) :
  0 <= iptr < 2 ^ 57 ->
  Z.lor iptr (t * 2 ^ 57) = iptr + t * 2 ^ 57.
Proof.
  intros Hp.
  assert (Hdisj : Z.land iptr (t * 2 ^ 57) = 0).
  { apply Z.bits_inj'. intros i Hi. rewrite Z.land_spec, Z.bits_0.
    destruct (Z.lt_ge_cases i 57) as [Hlt | Hge].
    - rewrite Z.mul_pow2_bits_low by lia. apply andb_false_r.
    - rewrite <- (Z.mod_small iptr (2 ^ 57)) by lia.
      rewrite Z.mod_pow2_bits_high by lia. reflexivity. }
  rewrite <- Z.lxor_lor by exact Hdisj.
  symmetry. apply Z.add_nocarry_lxor. exact Hdisj.
Qed.

(** The shifted type index, truncated to 64 bits. *)
Lemma shifted_type_wrap (t : Z) :
  wrap64 (Z.shiftl t tagShift) = (t mod 2 ^ 7) * 2 ^ 57.
Proof.
  unfold wrap64, tagShift. rewrite Z.shiftl_mul_pow2 by lia.
  change (2 ^ 64) with (2 ^ 7 * 2 ^ 57).
  rewrite Z.mul_mod_distr_r by lia. reflexivity.
Qed.

Lemma bits_of_from_ptr (iptr t : Z) :
  0 <= iptr < 2 ^ 57 ->
  Z.lor iptr (wrap64 (Z.shiftl t tagShift)) = iptr + (t mod 2 ^ 7) * 2 ^ 57.
Proof.
  intros Hp. rewrite shifted_type_wrap. apply lor_tag_field. exact Hp.
Qed.

Lemma Tag_of_from_ptr (iptr t : Z) :
  0 <= iptr < 2 ^ 57 ->
  Tag (mkTP (Z.lor iptr (wrap64 (Z.shiftl t tagShift)))) = t mod 2 ^ 7.
Proof.
  intros Hp. rewrite Tag_div_mod. cbn [bits].
  rewrite bits_of_from_ptr by exact Hp.
  rewrite Z.div_add by lia. rewrite Z.div_small by lia.
  rewrite Z.add_0_l. apply Z.mod_mod. lia.
Qed.

Lemma ptr_of_from_ptr (iptr t : Z) :
  0 <= iptr < 2 ^ 57 ->
  ptr (mkTP (Z.lor iptr (wrap64 (Z.shiftl t tagShift)))) = iptr.
Proof.
  intros Hp. rewrite ptr_mod. cbn [bits].
  rewrite bits_of_from_ptr by exact Hp.
  rewrite Z.mod_add by lia. apply Z.mod_small. exact Hp.
Qed.

Section PackFacts.
Context {Ty : Type} (Ty_eq_dec : forall a b : Ty, {a = b} + {a <> b}).

Lemma IndexOf_nth_error (T : Ty) (pack : list Ty) (k : nat) :
  IndexOf Ty_eq_dec T pack = Some k -> nth_error pack k = Some T.
Proof.
  revert k. induction pack as [| U Ts IH]; intros k H; cbn in H.
  - discriminate.
  - destruct (Ty_eq_dec T U) as [-> | Hne].
    + injection H as <-. reflexivity.
    + destruct (IndexOf Ty_eq_dec T Ts) as [j |]; cbn in H; [| discriminate].
      injection H as <-. cbn. apply IH. reflexivity.
Qed.

Lemma IndexOf_lt (T : Ty) (pack : list Ty) (k : nat) :
  IndexOf Ty_eq_dec T pack = Some k -> (k < length pack)%nat.
Proof.
  intros H. apply nth_error_Some. rewrite (IndexOf_nth_error _ _ _ H). discriminate.
Qed.

Lemma IndexOf_In (T : Ty) (pack : list Ty) :
  In T pack -> exists k, IndexOf Ty_eq_dec T pack = Some k.
Proof.
  induction pack as [| U Ts IH]; intros HIn; cbn.
  - contradiction.
  - destruct (Ty_eq_dec T U) as [-> | Hne].
    + exists 0%nat. reflexivity.
    + destruct HIn as [-> | HIn]; [contradiction |].
      destruct (IH HIn) as [k ->]. exists (S k). reflexivity.
Qed.

Lemma IndexOf_inj (T U : Ty) (pack : list Ty) (k : nat) :
  IndexOf Ty_eq_dec T pack = Some k -> IndexOf Ty_eq_dec U pack = Some k -> T = U.
Proof.
  intros HT HU.
  apply IndexOf_nth_error in HT. apply IndexOf_nth_error in HU. congruence.
Qed.

Section DispatchFacts.
Context {R : Type} (func : Ty -> Z -> R).

Lemma detail_Dispatch_large (T0 T1 T2 T3 T4 T5 T6 T7 T8 : Ty) (Ts : list Ty)
    (p index : Z) :
  8 <= index ->
  detail_Dispatch func (T0 :: T1 :: T2 :: T3 :: T4 :: T5 :: T6 :: T7 :: T8 :: Ts)
                  p index
  = detail_Dispatch func (T8 :: Ts) p (index - 8).
Proof.
  intros H. cbn [detail_Dispatch].
  repeat match goal with
         | |- context [?a >=? ?b] => rewrite (proj2 (Z.geb_le a b)) by lia
         | |- context [?a =? ?b] => rewrite (proj2 (Z.eqb_neq a b)) by lia
         end.
  reflexivity.
Qed.

Lemma detail_DispatchCPU_large (T0 T1 T2 T3 T4 T5 T6 T7 T8 : Ty) (Ts : list Ty)
    (p index : Z) :
  8 <= index ->
  detail_DispatchCPU func (T0 :: T1 :: T2 :: T3 :: T4 :: T5 :: T6 :: T7 :: T8 :: Ts)
                     p index
  = detail_DispatchCPU func (T8 :: Ts) p (index - 8).
Proof.
  intros H. cbn [detail_DispatchCPU].
  repeat match goal with
         | |- context [?a >=? ?b] => rewrite (proj2 (Z.geb_le a b)) by lia
         | |- context [?a =? ?b] => rewrite (proj2 (Z.eqb_neq a b)) by lia
         end.
  reflexivity.
Qed.

(** Cases of an index below the size of a pack of known shape. *)
Ltac small_index k H :=
  do 9 (try destruct k as [| k]); cbn in H; try discriminate H;
  try (injection H as <-; reflexivity).

(** The switch selects the branch of the type at position [index]. *)
Lemma detail_Dispatch_nth (pack : list Ty) (p : Z) (k : nat) (T : Ty) :
  nth_error pack k = Some T ->
  detail_Dispatch func pack p (Z.of_nat k) = Some (func T p).
Proof.
  remember (length pack) as m eqn:Hm.
  assert (Hle : (length pack <= m)%nat) by lia. clear Hm.
  revert pack k Hle. induction m as [| m IH]; intros pack k Hle H.
  - destruct pack; [destruct k; discriminate H | cbn in Hle; lia].
  - destruct pack as [| T0 [| T1 [| T2 [| T3 [| T4 [| T5 [| T6 [| T7 [| T8 Ts]]]]]]]]];
      try solve [small_index k H].
    do 8 (destruct k as [| k]; [cbn in H; injection H as <-; reflexivity |]).
    cbn in H.
    rewrite detail_Dispatch_large by lia.
    replace (Z.of_nat (S (S (S (S (S (S (S (S k)))))))) - 8) with (Z.of_nat k) by lia.
    apply IH; [cbn in Hle |- *; lia | exact H].
Qed.

Lemma detail_DispatchCPU_nth (pack : list Ty) (p : Z) (k : nat) (T : Ty) :
  nth_error pack k = Some T ->
  detail_DispatchCPU func pack p (Z.of_nat k) = Some (func T p).
Proof.
  remember (length pack) as m eqn:Hm.
  assert (Hle : (length pack <= m)%nat) by lia. clear Hm.
  revert pack k Hle. induction m as [| m IH]; intros pack k Hle H.
  - destruct pack; [destruct k; discriminate H | cbn in Hle; lia].
  - destruct pack as [| T0 [| T1 [| T2 [| T3 [| T4 [| T5 [| T6 [| T7 [| T8 Ts]]]]]]]]];
      try solve [small_index k H].
    do 8 (destruct k as [| k]; [cbn in H; injection H as <-; reflexivity |]).
    cbn in H.
    rewrite detail_DispatchCPU_large by lia.
    replace (Z.of_nat (S (S (S (S (S (S (S (S k)))))))) - 8) with (Z.of_nat k) by lia.
    apply IH; [cbn in Hle |- *; lia | exact H].
Qed.

End DispatchFacts.
End PackFacts.

Section HandleFacts.
Context {Ty : Type} (Ty_eq_dec : forall a b : Ty, {a = b} + {a <> b}).
Variable Types : list Ty.

Lemma TypeIndex_of_IndexOf (T : Ty) (k : nat) :
  IndexOf Ty_eq_dec T Types = Some k ->
  TypeIndex Ty_eq_dec Types T = Some (wrap32 (1 + Z.of_nat k)).
Proof. intros H. unfold TypeIndex. rewrite H. reflexivity. Qed.

(** What the constructor from a pointer builds: the tag is the type index
    reduced to the 7 bits of the tag field. *)
Lemma from_ptr_tag_ptr (T : Ty) (k : nat) (iptr : Z) :
  IndexOf Ty_eq_dec T Types = Some k ->
  0 <= iptr < 2 ^ 57 ->
  exists h, TaggedPointer_from_ptr Ty_eq_dec Types T iptr = Some h /\
            Tag h = (1 + Z.of_nat k) mod 2 ^ 7 /\ ptr h = iptr.
Proof.
  intros Hk Hp. unfold TaggedPointer_from_ptr.
  rewrite (proj2 (fits_ptrMask iptr) Hp), (TypeIndex_of_IndexOf _ _ Hk).
  eexists. split; [reflexivity |]. split.
  - rewrite Tag_of_from_ptr by exact Hp. unfold wrap32.
    change (2 ^ 32) with (2 ^ 25 * 2 ^ 7).
    rewrite Z.mul_comm, Z.rem_mul_r by lia.
    rewrite Z.mul_comm, Z.mod_add by lia. apply Z.mod_mod. lia.
  - apply ptr_of_from_ptr. exact Hp.
Qed.

Lemma from_ptr_inv (T : Ty) (iptr : Z) (h : TaggedPointer) :
  TaggedPointer_from_ptr Ty_eq_dec Types T iptr = Some h ->
  exists k, IndexOf Ty_eq_dec T Types = Some k /\ 0 <= iptr < 2 ^ 57.
Proof.
  unfold TaggedPointer_from_ptr, TypeIndex. intros H.
  destruct (Z.land iptr ptrMask =? iptr) eqn:Hfit; [| discriminate].
  destruct (IndexOf Ty_eq_dec T Types) as [k |]; [| discriminate].
  exists k. split; [reflexivity | apply fits_ptrMask; exact Hfit].
Qed.

Lemma Is_of_IndexOf (T : Ty) (k : nat) (h : TaggedPointer) :
  IndexOf Ty_eq_dec T Types = Some k ->
  Is Ty_eq_dec Types T h = Some (Tag h =? wrap32 (1 + Z.of_nat k)).
Proof. intros H. unfold Is. rewrite (TypeIndex_of_IndexOf _ _ H). reflexivity. Qed.

Lemma small_index_no_wrap (k : nat) :
  (k < 127)%nat ->
  wrap32 (1 + Z.of_nat k) = 1 + Z.of_nat k /\
  (1 + Z.of_nat k) mod 2 ^ 7 = 1 + Z.of_nat k.
Proof.
  intros H. unfold wrap32. split; apply Z.mod_small; lia.
Qed.

End HandleFacts.

(** C1 (as amended): for a pack of at most 127 types, every type [T] of the
    pack and every pointer [p] that fits the low 57 bits, the handle built from
    [p] satisfies [Is<T>()] and no [Is<U>()] for another type [U] of the pack,
    [Cast<T>()] gives [p] back, [Dispatch] and [DispatchCPU] on the non-empty
    handle call the visitor at [T] with [p], and [operator==] is equality of
    the 64-bit encodings, hence reflexive, symmetric and transitive. *)
Theorem tagged_pointer_roundtrip_and_dispatch
    (Ty : Type) (Ty_eq_dec : forall a b : Ty, {a = b} + {a <> b})
    (Types : list Ty) (T : Ty) (p : Z) :
  In T Types ->
  (length Types <= 127)%nat ->
  0 <= p < 2 ^ 57 ->
  exists h,
    TaggedPointer_from_ptr Ty_eq_dec Types T p = Some h /\
    Is Ty_eq_dec Types T h = Some true /\
    (forall U, In U Types -> U <> T -> Is Ty_eq_dec Types U h = Some false) /\
    Cast Ty_eq_dec Types T h = Some p /\
    (p <> 0 ->
     forall (R : Type) (func : Ty -> Z -> R),
       Dispatch Types func h = Some (func T p) /\
       DispatchCPU Types func h = Some (func T p)) /\
    (forall h1 h2, eqb h1 h2 = true <-> bits h1 = bits h2) /\
    (forall h1, eqb h1 h1 = true) /\
    (forall h1 h2, eqb h1 h2 = true -> eqb h2 h1 = true) /\
    (forall h1 h2 h3, eqb h1 h2 = true -> eqb h2 h3 = true -> eqb h1 h3 = true).
Proof.
  intros HIn Hlen Hp.
  destruct (IndexOf_In Ty_eq_dec T Types HIn) as [k Hk].
  pose proof (IndexOf_lt _ _ _ _ Hk) as Hklt.
  destruct (small_index_no_wrap k ltac:(lia)) as [Hw32 Hw7].
  destruct (from_ptr_tag_ptr _ _ _ _ p Hk Hp) as (h & Hh & Htag & Hptr).
  rewrite Hw7 in Htag.
  assert (HIs : Is Ty_eq_dec Types T h = Some true).
  { rewrite (Is_of_IndexOf _ _ _ _ h Hk), Hw32, Htag, Z.eqb_refl. reflexivity. }
  exists h. split; [exact Hh |]. split; [exact HIs |]. split; [| split; [| split]].
  - intros U HU Hne.
    destruct (IndexOf_In Ty_eq_dec U Types HU) as [j Hj].
    pose proof (IndexOf_lt _ _ _ _ Hj) as Hjlt.
    destruct (small_index_no_wrap j ltac:(lia)) as [Hj32 _].
    rewrite (Is_of_IndexOf _ _ _ _ h Hj), Hj32, Htag. f_equal.
    apply Z.eqb_neq. intros Heq.
    assert (k = j) by lia. subst j.
    apply Hne. exact (IndexOf_inj _ _ _ _ _ Hj Hk).
  - unfold Cast. rewrite HIs, Hptr. reflexivity.
  - intros Hnz R func. unfold Dispatch, DispatchCPU. rewrite Hptr, Htag.
    rewrite (proj2 (Z.eqb_neq p 0) Hnz).
    replace (int_of_unsigned (wrap32 (1 + Z.of_nat k - 1))) with (Z.of_nat k).
    + split; [apply detail_Dispatch_nth | apply detail_DispatchCPU_nth];
        exact (IndexOf_nth_error _ _ _ _ Hk).
    + replace (1 + Z.of_nat k - 1) with (Z.of_nat k) by lia.
      unfold wrap32. rewrite Z.mod_small by lia.
      unfold int_of_unsigned. rewrite (proj2 (Z.ltb_lt _ _)) by lia. reflexivity.
  - unfold eqb. repeat split.
    + apply Z.eqb_eq.
    + apply Z.eqb_eq.
    + intros h1. apply Z.eqb_refl.
    + intros h1 h2 H. rewrite Z.eqb_sym. exact H.
    + intros h1 h2 h3 H12 H23. apply Z.eqb_eq in H12, H23. apply Z.eqb_eq. congruence.
Qed.

(** The theorem at the [Light] pack: a [SpotLight] at address 4096. *)
Lemma tagged_pointer_roundtrip_witness :
  exists h,
    TaggedPointer_from_ptr LightClass_eq_dec LightTypes SpotLight 4096 = Some h /\
    Is LightClass_eq_dec LightTypes SpotLight h = Some true /\
    Cast LightClass_eq_dec LightTypes SpotLight h = Some 4096.
Proof.
  destruct (tagged_pointer_roundtrip_and_dispatch LightClass LightClass_eq_dec
              LightTypes SpotLight 4096)
    as (h & H1 & H2 & _ & H4 & _).
  - cbn. tauto.
  - cbn. lia.
  - lia.
  - exists h. auto.
Defined.

(** C1 as stated fails for a pack of 130 types: the handle built from a
    pointer to the type at position 128 carries tag [129 mod 128 = 1]; it does
    not satisfy [Is] for its own type, satisfies it for the first type of the
    pack, its [Cast] aborts and [Dispatch] calls the branch of the first
    type. *)
Lemma tagged_pointer_pack_of_130_types :
  let Types := seq 0 130 in
  let T := 128%nat in
  let func := fun (U : nat) (p : Z) => U in
  In T Types /\ 0 <= 8 < 2 ^ 57 /\
  TaggedPointer_from_ptr Nat.eq_dec Types T 8 = Some (mkTP (8 + 2 ^ 57)) /\
  Is Nat.eq_dec Types T (mkTP (8 + 2 ^ 57)) = Some false /\
  Is Nat.eq_dec Types 0%nat (mkTP (8 + 2 ^ 57)) = Some true /\
  Cast Nat.eq_dec Types T (mkTP (8 + 2 ^ 57)) = None /\
  Dispatch Types func (mkTP (8 + 2 ^ 57)) = Some 0%nat.
Proof.
  cbv zeta. split; [apply in_seq; lia |]. split; [lia |].
  repeat split; vm_compute; reflexivity.
Qed.

(** C2 (as amended): for every pack, the tag of a handle produced by a public
    constructor lies in [[0, n]], [n] the number of enumerated types (which
    [MaxTag()] returns when [n < 2^32]); a default- or [nullptr]-constructed
    handle has tag 0; a handle constructed from a pointer to the type at
    position [k] has tag [k + 1] provided [k + 1 <= 127], the largest value of
    the 7-bit tag field. *)
Theorem tag_invariant_of_constructed_handles
    (Ty : Type) (Ty_eq_dec : forall a b : Ty, {a = b} + {a <> b})
    (Types : list Ty) :
  (forall h, Constructed Ty_eq_dec Types h ->
             0 <= Tag h <= Z.of_nat (length Types)) /\
  (Z.of_nat (length Types) < 2 ^ 32 -> MaxTag Types = Z.of_nat (length Types)) /\
  Tag TaggedPointer_default = 0 /\
  Tag TaggedPointer_nullptr = 0 /\
  (forall T k p h,
      IndexOf Ty_eq_dec T Types = Some k ->
      TaggedPointer_from_ptr Ty_eq_dec Types T p = Some h ->
      (k + 1 <= 127)%nat ->
      Tag h = Z.of_nat k + 1).
Proof.
  assert (Hfrom : forall T k p h,
             IndexOf Ty_eq_dec T Types = Some k ->
             TaggedPointer_from_ptr Ty_eq_dec Types T p = Some h ->
             Tag h = (1 + Z.of_nat k) mod 2 ^ 7).
  { intros T k p h Hk Hh.
    destruct (from_ptr_inv _ _ _ _ _ Hh) as (k' & Hk' & Hp).
    destruct (from_ptr_tag_ptr _ _ _ _ p Hk Hp) as (h' & Hh' & Htag & _).
    congruence. }
  split; [| split; [| split; [| split]]].
  - intros h Hc. induction Hc as [| | t Hc IH | T p h Hh].
    + cbn. lia.
    + cbn. lia.
    + exact IH.
    + destruct (from_ptr_inv _ _ _ _ _ Hh) as (k & Hk & Hp).
      pose proof (IndexOf_lt _ _ _ _ Hk) as Hlt.
      rewrite (Hfrom _ _ _ _ Hk Hh).
      pose proof (Z.mod_pos_bound (1 + Z.of_nat k) (2 ^ 7) ltac:(lia)) as Hb.
      destruct (Z.le_gt_cases 127 (Z.of_nat (length Types))) as [Hbig | Hsmall].
      * lia.
      * rewrite Z.mod_small by lia. lia.
  - intros Hn. unfold MaxTag, wrap32. apply Z.mod_small. lia.
  - reflexivity.
  - reflexivity.
  - intros T k p h Hk Hh Hsmall.
    rewrite (Hfrom _ _ _ _ Hk Hh). rewrite Z.mod_small by lia. lia.
Qed.

(** The theorem at the [Light] pack: an [ImageInfiniteLight], position 7,
    gets tag 8; the pack has 9 types. *)
Lemma tag_invariant_witness :
  MaxTag LightTypes = 9 /\
  forall h, TaggedPointer_from_ptr LightClass_eq_dec LightTypes
              ImageInfiniteLight 65536 = Some h ->
            Tag h = 8 /\ 0 <= Tag h <= 9.
Proof.
  destruct (tag_invariant_of_constructed_handles LightClass LightClass_eq_dec
              LightTypes) as (Hrange & Hmax & _ & _ & Hk).
  split.
  - apply Hmax. cbn. lia.
  - intros h Hh. split.
    + apply (Hk ImageInfiniteLight 7%nat 65536 h); [reflexivity | exact Hh | lia].
    + apply (Hrange h).
      apply (Constructed_from_ptr _ _ _ ImageInfiniteLight 65536). exact Hh.
Defined.

(** C2 as stated fails for a pack of 128 types: the handle built from a
    pointer to the last type, position 127, has tag 0 and not 128. *)
Lemma tag_of_last_of_128_types :
  let Types := seq 0 128 in
  IndexOf Nat.eq_dec 127%nat Types = Some 127%nat /\
  0 <= 8 < 2 ^ 57 /\
  MaxTag Types = 128 /\
  TaggedPointer_from_ptr Nat.eq_dec Types 127%nat 8 = Some (mkTP 8) /\
  Tag (mkTP 8) = 0 /\
  Tag (mkTP 8) <> 127 + 1.
Proof.
  cbv zeta. split; [vm_compute; reflexivity |]. split; [lia |].
  repeat split; try (vm_compute; reflexivity).
  vm_compute. discriminate.
Qed.

(** C9: for every handle and every type of the pack, [CastOrNullptr<T>()]
    returns the stored pointer when [Is<T>()] holds and [nullptr] otherwise; in
    both cases it returns (no check fails) and the handle's bits are
    unchanged, whereas [Cast<T>()] aborts on a mismatch. *)
Theorem CastOrNullptr_total
    (Ty : Type) (Ty_eq_dec : forall a b : Ty, {a = b} + {a <> b})
    (Types : list Ty) (T : Ty) (h : TaggedPointer) :
  In T Types ->
  exists b,
    Is Ty_eq_dec Types T h = Some b /\
    CastOrNullptr Ty_eq_dec Types T h = Some (if b then ptr h else 0, h) /\
    (b = false -> Cast Ty_eq_dec Types T h = None).
Proof.
  intros HIn. destruct (IndexOf_In Ty_eq_dec T Types HIn) as [k Hk].
  exists (Tag h =? wrap32 (1 + Z.of_nat k)).
  pose proof (Is_of_IndexOf Ty_eq_dec Types T k h Hk) as HIs.
  split; [exact HIs |]. unfold CastOrNullptr, Cast. rewrite HIs.
  destruct (Tag h =? wrap32 (1 + Z.of_nat k)); split; try reflexivity.
  intros H; discriminate H.
Qed.

(** The theorem at the [Light] pack: a handle tagged as a [PointLight] asked
    for a [SpotLight], and asked for a [PointLight]. *)
Lemma CastOrNullptr_witness :
  CastOrNullptr LightClass_eq_dec LightTypes SpotLight (mkTP (2 ^ 57 + 4096))
    = Some (0, mkTP (2 ^ 57 + 4096)) /\
  CastOrNullptr LightClass_eq_dec LightTypes PointLight (mkTP (2 ^ 57 + 4096))
    = Some (4096, mkTP (2 ^ 57 + 4096)).
Proof.
  split.
  - destruct (CastOrNullptr_total LightClass LightClass_eq_dec LightTypes SpotLight
                (mkTP (2 ^ 57 + 4096))) as (b & HIs & HC & _).
    + cbn. tauto.
    + rewrite HC. vm_compute in HIs. injection HIs as <-. reflexivity.
  - destruct (CastOrNullptr_total LightClass LightClass_eq_dec LightTypes PointLight
                (mkTP (2 ^ 57 + 4096))) as (b & HIs & HC & _).
    + cbn. tauto.
    + rewrite HC. vm_compute in HIs. injection HIs as <-. reflexivity.
Defined.

(* ================================================================== *)
(** * Properties of the integrators *)

Lemma LightType_eqb_eq (a b : LightType) : LightType_eqb a b = true <-> a = b.
Proof. destruct a, b; cbn; split; intro H; try reflexivity; discriminate H. Qed.

Section IntegratorFacts.
Context {F : FloatOps} {V : VecOps F} {Sc : SceneOps F V}.
Import Integrators.

(** The loop of the constructor, started from any state. *)
Lemma Integrator_visit_fold (b : Bounds3f) (ls inf : list Light)
    (calls : list PreprocessCall) :
  fold_left (Integrator_visit b) ls (inf, calls)
  = (inf ++ filter is_infinite ls, calls ++ map (fun l => (l, b)) ls).
Proof.
  revert inf calls. induction ls as [| l ls IH]; intros inf calls; cbn [fold_left].
  - cbn. rewrite !app_nil_r. reflexivity.
  - unfold Integrator_visit at 2. cbn [fst snd filter map].
    destruct (is_infinite l); rewrite IH, <- !app_assoc; reflexivity.
Qed.

End IntegratorFacts.

(** C3: the [Integrator] constructor calls [Preprocess(sceneBounds)] once per
    entry of the light list, in list order, where [sceneBounds] is
    [aggregate.Bounds()] for a non-empty aggregate handle and [Bounds3f()]
    otherwise; [infiniteLights] holds exactly the lights of kind [Infinite],
    in list order; [lights] still holds the whole list. *)
Theorem Integrator_ctor_preprocesses_and_partitions
    (F : FloatOps) (V : VecOps F) (Sc : SceneOps F V)
    (aggregate0 : Primitive) (lights0 : list Light) :
  let sceneBounds :=
    if TaggedPtr.to_bool aggregate0 then Primitive_Bounds aggregate0
    else Bounds3f_default in
  let I := fst (Integrators.Integrator_ctor aggregate0 lights0) in
  let calls := snd (Integrators.Integrator_ctor aggregate0 lights0) in
  calls = map (fun l => (l, sceneBounds)) lights0 /\
  map fst calls = lights0 /\
  Integrators.infiniteLights I = filter Integrators.is_infinite lights0 /\
  (forall l, In l (Integrators.infiniteLights I) <->
             In l lights0 /\ Light_Type l = Infinite) /\
  Integrators.lights I = lights0 /\
  Integrators.aggregate I = aggregate0.
Proof.
  cbv zeta. unfold Integrators.Integrator_ctor.
  rewrite Integrator_visit_fold. cbn [fst snd app Integrators.infiniteLights
    Integrators.lights Integrators.aggregate].
  split; [reflexivity |]. split.
  - rewrite map_map. cbn [fst]. apply map_id.
  - split; [reflexivity |]. split; [| split; reflexivity].
    intros l. rewrite filter_In. unfold Integrators.is_infinite.
    rewrite LightType_eqb_eq. reflexivity.
Qed.

(** C10: the [SPPMIntegrator] constructor stores the area of the film's pixel
    bounds when [photonsPerIteration <= 0] and the given value otherwise. *)
Theorem SPPMIntegrator_ctor_photonsPerIteration
    (F : FloatOps) (V : VecOps F) (Sc : SceneOps F V)
    (camera0 : Camera) (sampler0 : Sampler) (aggregate0 : Primitive)
    (lights0 : list Light) (photonsPerIteration0 maxDepth0 : Z)
    (initialSearchRadius0 : Float) (seed colorSpace0 : Z) :
  let I := fst (Integrators.SPPMIntegrator_ctor camera0 sampler0 aggregate0 lights0
                  photonsPerIteration0 maxDepth0 initialSearchRadius0 seed
                  colorSpace0) in
  (photonsPerIteration0 <= 0 ->
   Integrators.photonsPerIteration I
   = Bounds2i_Area (Film_PixelBounds (Camera_GetFilm camera0))) /\
  (photonsPerIteration0 > 0 ->
   Integrators.photonsPerIteration I = photonsPerIteration0).
Proof.
  cbv zeta. unfold Integrators.SPPMIntegrator_ctor.
  cbn [fst Integrators.photonsPerIteration].
  destruct (Z.gtb_spec photonsPerIteration0 0) as [Hgt | Hle]; split; intros H;
    try reflexivity; lia.
Qed.

(** The theorem on the test scene, whose film has 640 x 480 pixels. *)
Lemma SPPMIntegrator_ctor_witness :
  Integrators.photonsPerIteration
    (fst (@Integrators.SPPMIntegrator_ctor _ _ TestScene.Floor TestScene.camera
            TestScene.sampler TestScene.scene TestScene.lights3 0 5 1%Q 0 0))
    = 307200 /\
  Integrators.photonsPerIteration
    (fst (@Integrators.SPPMIntegrator_ctor _ _ TestScene.Floor TestScene.camera
            TestScene.sampler TestScene.scene TestScene.lights3 1000 5 1%Q 0 0))
    = 1000.
Proof.
  split.
  - apply (proj1 (SPPMIntegrator_ctor_photonsPerIteration _ _ TestScene.Floor
             TestScene.camera TestScene.sampler TestScene.scene TestScene.lights3
             0 5 1%Q 0 0)).
    lia.
  - apply (proj2 (SPPMIntegrator_ctor_photonsPerIteration _ _ TestScene.Floor
             TestScene.camera TestScene.sampler TestScene.scene TestScene.lights3
             1000 5 1%Q 0 0)).
    lia.
Defined.

(** C5: when the intersection query finds no hit, [LiRandomWalk] returns the
    plain sum, from zero and in list order, of [light.Le(ray, lambda)] over
    [infiniteLights]; no weight is applied, the sampler is not advanced and
    [LiRandomWalk] is not called again. *)
Theorem LiRandomWalk_miss_returns_infinite_light_sum
    (F : FloatOps) (V : VecOps F) (Sc : SceneOps F V)
    (I : Integrators.RandomWalkIntegrator) (ray : RayDifferential)
    (sampler : Sampler) (st : Integrators.WalkState) (depth : Z) (fuel : nat) :
  Integrators.Intersect (Integrators.rw_base I) ray = None ->
  Integrators.LiRandomWalk (S fuel) I ray sampler st depth
  = Some (Integrators.mkWalkResult
            (fold_left
               (fun Le light =>
                  Spectrum_add Le (Light_Le light ray (Integrators.lambda st)))
               (Integrators.infiniteLights (Integrators.rw_base I))
               (Spectrum_const (Float_lit 0)))
            st [depth]).
Proof.
  intros Hmiss. cbn [Integrators.LiRandomWalk]. rewrite Hmiss. reflexivity.
Qed.

(** The theorem on the test scene: a ray going up sees the two infinite
    lights, which emit 32 and 48. *)
Lemma LiRandomWalk_miss_witness :
  @Integrators.LiRandomWalk _ _ TestScene.Floor 1 (TestScene.walker 3)
    TestScene.ray_up TestScene.sampler TestScene.start 0
  = Some (@Integrators.mkWalkResult _ _ TestScene.Floor 80%Q TestScene.start [0]).
Proof.
  rewrite (LiRandomWalk_miss_returns_infinite_light_sum _ _ TestScene.Floor
             (TestScene.walker 3) TestScene.ray_up TestScene.sampler
             TestScene.start 0 0).
  - reflexivity.
  - reflexivity.
Defined.

(** C6 (as amended): at a hit, when [GetBSDF] yields an empty BSDF, or when
    the BSDF value times [|cos theta|] for the sampled direction is zero,
    [LiRandomWalk] returns (no abort) exactly the radiance [Le] emitted at
    that hit, without calling itself again; no arithmetic is done on [Le], so
    that whatever test [finite] is made of the result has the outcome it has
    on [Le]: the result is finite exactly when the emitted radiance is. *)
Theorem LiRandomWalk_early_termination_returns_Le
    (F : FloatOps) (V : VecOps F) (Sc : SceneOps F V)
    (I : Integrators.RandomWalkIntegrator) (ray : RayDifferential)
    (sampler : Sampler) (st : Integrators.WalkState) (depth : Z) (fuel : nat)
    (si : Integrators.ShapeIntersection)
    (bsdf : BSDF) (isect1 : Intr.SurfaceInteraction) (lam1 : SampledWavelengths)
    (store1 store2 : Store) (u : Point2f) :
  Integrators.Intersect (Integrators.rw_base I) ray = Some si ->
  GetBSDF (Integrators.intr si) ray (Integrators.lambda st)
          (Integrators.rw_camera I) sampler (Integrators.store st)
  = (bsdf, isect1, lam1, store1) ->
  Sampler_Get2D sampler store1 = (u, store2) ->
  BSDF_to_bool bsdf = false \/
  Spectrum_to_bool
    (Spectrum_scale
       (BSDF_f bsdf (Tuple3_neg (ray_d ray)) (SampleUniformSphere u))
       (AbsDot (SampleUniformSphere u) (Intr.shading_n (Intr.shading isect1))))
  = false ->
  exists r,
    Integrators.LiRandomWalk (S fuel) I ray sampler st depth = Some r /\
    Integrators.radiance r
    = Surface_Le (Integrators.intr si) (Tuple3_neg (ray_d ray))
                 (Integrators.lambda st) /\
    Integrators.activations r = [depth] /\
    forall finite : SampledSpectrum -> bool,
      finite (Integrators.radiance r)
      = finite (Surface_Le (Integrators.intr si) (Tuple3_neg (ray_d ray))
                           (Integrators.lambda st)).
Proof.
  intros Hhit HB HU Hstop. cbn [Integrators.LiRandomWalk]. rewrite Hhit.
  destruct (depth =? Integrators.maxDepth I).
  - eexists. split; [reflexivity |]. repeat split; reflexivity.
  - rewrite HB. destruct (BSDF_to_bool bsdf) eqn:Hb; cbn [negb].
    + rewrite HU. destruct Hstop as [Hstop | Hstop]; [discriminate Hstop |].
      rewrite Hstop. cbn [negb]. eexists. split; [reflexivity |].
      repeat split; reflexivity.
    + eexists. split; [reflexivity |]. repeat split; reflexivity.
Qed.

(** The theorem on the lit floor, once for each way of stopping: a ray that
    lands at [(1, -1)], where the floor has no material, and a ray that lands
    at [(1, 0)], where its BSDF is black.  Both return the radiance 5 of
    the floor, a finite number. *)
Lemma LiRandomWalk_early_termination_witness :
  (exists r,
      @Integrators.LiRandomWalk _ _ DoubleModel.Lamp 1 (DoubleModel.walker 3)
        (DoubleModel.ray_down 1 (-1)) TestScene.sampler DoubleModel.start 0 = Some r /\
      Integrators.radiance r = DoubleModel.float_of_Z 5 /\
      Integrators.activations r = [0] /\
      PrimFloat.is_finite (Integrators.radiance r) = true) /\
  (exists r,
      @Integrators.LiRandomWalk _ _ DoubleModel.Lamp 1 (DoubleModel.walker 3)
        (DoubleModel.ray_down 1 0) TestScene.sampler DoubleModel.start 0 = Some r /\
      Integrators.radiance r = DoubleModel.float_of_Z 5 /\
      Integrators.activations r = [0] /\
      PrimFloat.is_finite (Integrators.radiance r) = true).
Proof.
  split.
  - destruct (LiRandomWalk_early_termination_returns_Le _ _ DoubleModel.Lamp
                (DoubleModel.walker 3) (DoubleModel.ray_down 1 (-1))
                TestScene.sampler DoubleModel.start 0 0
                (Integrators.mkShapeIntersection
                   (DoubleModel.floor_hit (DoubleModel.ray_down 1 (-1)))
                   PrimFloat.one)
                None (DoubleModel.floor_hit (DoubleModel.ray_down 1 (-1))) tt
                0%nat 1%nat Tuple2_zero)
      as (r & Hr & Hrad & Hact & Hfin).
    + reflexivity.
    + reflexivity.
    + reflexivity.
    + left. reflexivity.
    + exists r. split; [exact Hr |]. split; [exact Hrad |]. split; [exact Hact |].
      rewrite (Hfin PrimFloat.is_finite). reflexivity.
  - destruct (LiRandomWalk_early_termination_returns_Le _ _ DoubleModel.Lamp
                (DoubleModel.walker 3) (DoubleModel.ray_down 1 0)
                TestScene.sampler DoubleModel.start 0 0
                (Integrators.mkShapeIntersection
                   (DoubleModel.floor_hit (DoubleModel.ray_down 1 0))
                   PrimFloat.one)
                (Some PrimFloat.zero)
                (DoubleModel.floor_hit (DoubleModel.ray_down 1 0)) tt
                0%nat 1%nat Tuple2_zero)
      as (r & Hr & Hrad & Hact & Hfin).
    + reflexivity.
    + reflexivity.
    + reflexivity.
    + right. reflexivity.
    + exists r. split; [exact Hr |]. split; [exact Hrad |]. split; [exact Hact |].
      rewrite (Hfin PrimFloat.is_finite). reflexivity.
Defined.

(** C6 as stated fails in its last words: the result is as finite as the
    emitted radiance, and no more.  On the lit floor a ray that lands at
    [(-1, -1)] hits a point without material whose radiance, [2 ^ 600]
    scaled by [2 ^ 600], has overflowed to infinity; the walk stops there
    and returns that infinity. *)
Lemma LiRandomWalk_returns_overflowed_emission :
  exists si r,
    @Integrators.Intersect _ _ DoubleModel.Lamp
      (Integrators.rw_base (DoubleModel.walker 3)) (DoubleModel.ray_down (-1) (-1))
    = Some si /\
    @BSDF_to_bool _ _ DoubleModel.Lamp
      (fst (fst (fst (@GetBSDF _ _ DoubleModel.Lamp (Integrators.intr si)
                        (DoubleModel.ray_down (-1) (-1)) tt TestScene.camera
                        TestScene.sampler 0%nat))))
    = false /\
    @Integrators.LiRandomWalk _ _ DoubleModel.Lamp 1 (DoubleModel.walker 3)
      (DoubleModel.ray_down (-1) (-1)) TestScene.sampler DoubleModel.start 0 = Some r /\
    Integrators.radiance r = PrimFloat.infinity /\
    PrimFloat.is_finite (Integrators.radiance r) = false.
Proof.
  eexists. eexists. repeat split; reflexivity.
Qed.

Section WalkTermination.
Context {F : FloatOps} {V : VecOps F} {Sc : SceneOps F V}.
Import Integrators.

Lemma consecutive_from_cons (d : Z) (len : nat) :
  d :: consecutive_from (d + 1) len = consecutive_from d (S len).
Proof.
  unfold consecutive_from. cbn [seq map]. rewrite Z.add_0_r. f_equal.
  rewrite <- seq_shift, map_map. apply map_ext. intros i. lia.
Qed.

Lemma consecutive_from_one (d : Z) : [d] = consecutive_from d 1.
Proof. unfold consecutive_from. cbn. rewrite Z.add_0_r. reflexivity. Qed.

(** A walk started at depth [d <= maxDepth] returns with any fuel above
    [maxDepth - d], and its activations are at consecutive depths that stop
    at [maxDepth] at the latest. *)
Lemma LiRandomWalk_returns (I : RandomWalkIntegrator) (sampler : Sampler) (m : nat) :
  forall (d : Z) (ray : RayDifferential) (st : WalkState),
    0 <= d ->
    maxDepth I <= INT_MAX ->
    maxDepth I - d = Z.of_nat m ->
    exists r,
      (forall fuel, (m < fuel)%nat -> LiRandomWalk fuel I ray sampler st d = Some r) /\
      activations r = consecutive_from d (length (activations r)) /\
      (1 <= length (activations r) <= S m)%nat.
Proof.
  induction m as [| m IH]; intros d ray st Hd Hmax Hm.
  - assert (Hstop : (d =? maxDepth I) = true) by (apply Z.eqb_eq; lia).
    destruct (Intersect (rw_base I) ray) as [si |] eqn:Hhit.
    + eexists. split; [| split].
      * intros fuel Hf. destruct fuel as [| fuel]; [lia |].
        cbn [LiRandomWalk]. rewrite Hhit, Hstop. reflexivity.
      * apply consecutive_from_one.
      * cbn. lia.
    + eexists. split; [| split].
      * intros fuel Hf. destruct fuel as [| fuel]; [lia |].
        cbn [LiRandomWalk]. rewrite Hhit. reflexivity.
      * apply consecutive_from_one.
      * cbn. lia.
  - assert (Hgo : (d =? maxDepth I) = false) by (apply Z.eqb_neq; lia).
    assert (Hint : (d + 1 >? INT_MAX) = false).
    { destruct (Z.gtb_spec (d + 1) INT_MAX); [lia | reflexivity]. }
    destruct (Intersect (rw_base I) ray) as [si |] eqn:Hhit.
    + destruct (GetBSDF (intr si) ray (lambda st) (rw_camera I) sampler (store st))
        as [[[bsdf isect1] lam1] store1] eqn:HB.
      destruct (BSDF_to_bool bsdf) eqn:Hb.
      * destruct (Sampler_Get2D sampler store1) as [u store2] eqn:HU.
        destruct (Spectrum_to_bool
                    (Spectrum_scale
                       (BSDF_f bsdf (Tuple3_neg (ray_d ray)) (SampleUniformSphere u))
                       (AbsDot (SampleUniformSphere u)
                               (Intr.shading_n (Intr.shading isect1))))) eqn:Hf.
        -- destruct (IH (d + 1)
                        (Intr.SpawnRay MediumInterface_deref (Intr.si_base isect1)
                                       (SampleUniformSphere u))
                        (mkWalkState lam1 store2))
             as (r & Hr & Hact & Hlen); try lia.
           eexists. split; [| split].
           ++ intros fuel Hfuel. destruct fuel as [| fuel]; [lia |].
              cbn [LiRandomWalk]. rewrite Hhit, Hgo, HB, Hb. cbn [negb].
              rewrite HU, Hf. cbn [negb]. rewrite Hint.
              rewrite (Hr fuel) by lia. reflexivity.
           ++ cbn [activations length]. rewrite Hact at 1.
              apply consecutive_from_cons.
           ++ cbn [activations length]. lia.
        -- eexists. split; [| split].
           ++ intros fuel Hfuel. destruct fuel as [| fuel]; [lia |].
              cbn [LiRandomWalk]. rewrite Hhit, Hgo, HB, Hb. cbn [negb].
              rewrite HU, Hf. reflexivity.
           ++ apply consecutive_from_one.
           ++ cbn. lia.
      * eexists. split; [| split].
        -- intros fuel Hfuel. destruct fuel as [| fuel]; [lia |].
           cbn [LiRandomWalk]. rewrite Hhit, Hgo, HB, Hb. reflexivity.
        -- apply consecutive_from_one.
        -- cbn. lia.
    + eexists. split; [| split].
      * intros fuel Hf. destruct fuel as [| fuel]; [lia |].
        cbn [LiRandomWalk]. rewrite Hhit. reflexivity.
      * apply consecutive_from_one.
      * cbn. lia.
Qed.

End WalkTermination.

(** C7: for every [maxDepth >= 0], [Li] returns: [maxDepth + 1] nested
    activations of [LiRandomWalk] are enough (and any larger budget gives the
    same result); the activations are at depths [0, 1, 2, ...], each one more
    than the one before, none beyond [maxDepth], so at most [maxDepth + 1] of
    them. *)
Theorem Li_terminates_within_maxDepth
    (F : FloatOps) (V : VecOps F) (Sc : SceneOps F V)
    (I : Integrators.RandomWalkIntegrator) (ray : RayDifferential)
    (sampler : Sampler) (st : Integrators.WalkState) :
  0 <= Integrators.maxDepth I <= INT_MAX ->
  exists r,
    Integrators.Li (S (Z.to_nat (Integrators.maxDepth I))) I ray sampler st = Some r /\
    (forall fuel, (Z.to_nat (Integrators.maxDepth I) < fuel)%nat ->
                  Integrators.Li fuel I ray sampler st = Some r) /\
    Integrators.activations r
    = map Z.of_nat (seq 0 (length (Integrators.activations r))) /\
    (forall d, In d (Integrators.activations r) -> 0 <= d <= Integrators.maxDepth I) /\
    1 <= Z.of_nat (length (Integrators.activations r)) <= Integrators.maxDepth I + 1.
Proof.
  intros Hmax.
  destruct (LiRandomWalk_returns I sampler (Z.to_nat (Integrators.maxDepth I))
              0 ray st) as (r & Hr & Hact & Hlen); try lia.
  exists r. unfold Integrators.Li.
  assert (Hseq : Integrators.activations r
                 = map Z.of_nat (seq 0 (length (Integrators.activations r)))).
  { rewrite Hact at 1. unfold Integrators.consecutive_from. apply map_ext. intros i. lia. }
  split; [apply Hr; lia |]. split; [exact Hr |]. split; [exact Hseq |]. split.
  - intros d Hd. rewrite Hseq in Hd. apply in_map_iff in Hd.
    destruct Hd as (i & <- & Hi). apply in_seq in Hi. lia.
  - lia.
Qed.

(** The theorem on the test scene, with [maxDepth = 3]: the walk hits the
    floor, is sent up and leaves the scene at depth 1. *)
Lemma Li_terminates_witness :
  exists r,
    @Integrators.Li _ _ TestScene.Floor 4 (TestScene.walker 3)
      (TestScene.ray_down 1 1) TestScene.sampler TestScene.start = Some r /\
    (forall d, In d (Integrators.activations r) -> 0 <= d <= 3).
Proof.
  destruct (Li_terminates_within_maxDepth _ _ TestScene.Floor (TestScene.walker 3)
              (TestScene.ray_down 1 1) TestScene.sampler TestScene.start)
    as (r & Hr & _ & _ & Hd & _).
  - cbn. unfold INT_MAX. lia.
  - exists r. split; [exact Hr | exact Hd].
Defined.

(* ================================================================== *)
(** * Properties of the interaction records *)

(** The classification of an interaction reads the normal only: it is a
    surface interaction when [n != Normal3f(0, 0, 0)], a medium interaction
    otherwise; the constructor of [MediumInteraction] leaves [n]
    value-initialised, and the one of [SurfaceInteraction] stores
    [Normalize(Cross(dpdu, dpdv))], negated when [flipNormal] is set. *)
Lemma Interaction_classification (F : FloatOps) (V : VecOps F) :
  (forall i : Intr.Interaction,
      Intr.IsSurfaceInteraction i = Tuple3_ne (Intr.n i) Tuple3_zero /\
      Intr.IsMediumInteraction i = negb (Intr.IsSurfaceInteraction i)) /\
  (forall p wo0 time0 medium0 phase0,
      Intr.n (Intr.mi_base (Intr.MediumInteraction_ctor p wo0 time0 medium0 phase0))
      = Tuple3_zero) /\
  (forall pi0 uv0 wo0 dpdu0 dpdv0 dndu0 dndv0 time0 flipNormal,
      Intr.n (Intr.si_base
                (Intr.SurfaceInteraction_ctor pi0 uv0 wo0 dpdu0 dpdv0 dndu0 dndv0
                                              time0 flipNormal))
      = if flipNormal
        then Tuple3_scale (Normalize (Cross dpdu0 dpdv0)) (Float_lit (-1))
        else Normalize (Cross dpdu0 dpdv0)).
Proof.
  split; [| split].
  - intros i. split; reflexivity.
  - reflexivity.
  - intros. destruct flipNormal; reflexivity.
Qed.

(** *** Exact arithmetic meets what the records rely on *)

Section ExactArithmetic.
Import ExactModel.

Lemma RealFloat_neb_true (a b : R) : @Float_neb RealFloat a b = true <-> a <> b.
Proof.
  cbn. destruct (Req_dec_T a b) as [E | E]; split; intros H;
    try discriminate; try reflexivity; try assumption. contradiction.
Qed.

Lemma RealFloat_neb_false (a b : R) : @Float_neb RealFloat a b = false <-> a = b.
Proof.
  cbn. destruct (Req_dec_T a b) as [E | E]; split; intros H;
    try discriminate; try reflexivity; try assumption. contradiction.
Qed.

Lemma RealFloat_zero_equals_zero : zero_equals_zero RealFloat.
Proof. apply RealFloat_neb_false. reflexivity. Qed.

Lemma RealFloat_negation_keeps_nonzero : negation_keeps_nonzero RealFloat.
Proof.
  intros x. destruct (@Float_neb RealFloat x (Float_lit 0)) eqn:E.
  - apply RealFloat_neb_true. apply RealFloat_neb_true in E. cbn in *. lra.
  - apply RealFloat_neb_false. apply RealFloat_neb_false in E. cbn in *. lra.
Qed.

Lemma RealFloat_Tuple3_ne_zero (v : Tuple3 R) :
  @Tuple3_ne RealFloat v Tuple3_zero = true <->
  (vx v <> 0 \/ vy v <> 0 \/ vz v <> 0)%R.
Proof.
  unfold Tuple3_ne, Tuple3_zero. cbn [vx vy vz].
  rewrite !orb_true_iff, !RealFloat_neb_true. cbn. tauto.
Qed.

Lemma RealFloat_IsUnitLength (v : Tuple3 R) :
  @IsUnitLength RealFloat v = true <->
  (vx v * vx v + vy v * vy v + vz v * vz v = 1)%R.
Proof.
  unfold IsUnitLength. rewrite negb_true_iff, RealFloat_neb_false. cbn. tauto.
Qed.

Lemma RealFloat_unit_vectors_are_nonzero : unit_vectors_are_nonzero RealFloat.
Proof.
  intros [x y z] H. apply RealFloat_IsUnitLength in H.
  apply RealFloat_Tuple3_ne_zero. cbn [vx vy vz] in *.
  destruct (Req_dec_T x 0) as [Ex | Ex]; [| now left].
  destruct (Req_dec_T y 0) as [Ey | Ey]; [| now right; left].
  destruct (Req_dec_T z 0) as [Ez | Ez]; [| now right; right].
  subst x y z. lra.
Qed.

Lemma sum_of_squares_pos (x y z : R) :
  (x <> 0 \/ y <> 0 \/ z <> 0 -> 0 < x * x + y * y + z * z)%R.
Proof.
  intros H.
  assert (Hx : (0 <= x * x)%R) by nra.
  assert (Hy : (0 <= y * y)%R) by nra.
  assert (Hz : (0 <= z * z)%R) by nra.
  destruct H as [H | [H | H]].
  - assert (0 < x * x)%R by nra. lra.
  - assert (0 < y * y)%R by nra. lra.
  - assert (0 < z * z)%R by nra. lra.
Qed.

(** In exact arithmetic [v / Length(v)] is of unit length for every
    [v] that differs from the zero vector. *)
Lemma RealVec_Normalize_returns_unit : Normalize_returns_unit RealFloat RealVec.
Proof.
  intros [x y z] H. apply RealFloat_Tuple3_ne_zero in H.
  apply sum_of_squares_pos in H.
  apply RealFloat_IsUnitLength. cbn [Normalize RealVec vx vy vz] in *.
  unfold LengthSquared. cbn [Float_add Float_mul RealFloat vx vy vz].
  set (L := (x * x + y * y + z * z)%R) in *.
  assert (Hs : (0 < sqrt L)%R) by (apply sqrt_lt_R0; exact H).
  assert (Hq : (sqrt L * sqrt L = L)%R) by (apply sqrt_sqrt; lra).
  assert (Hne : (sqrt L <> 0)%R) by lra.
  transitivity (L / (sqrt L * sqrt L))%R.
  - unfold L. field. exact Hne.
  - rewrite Hq. field. lra.
Qed.

End ExactArithmetic.

(** In double precision [0 != 0] is false as well, but [Normalize] does not
    keep its promise: the squared length of [(0, 0, 2 ^ 800)] overflows, its
    length is infinite, and the quotient is the zero vector. *)
Lemma DoubleFloat_zero_equals_zero : zero_equals_zero DoubleModel.DoubleFloat.
Proof. reflexivity. Qed.

Lemma DoubleVec_Normalize_overflows :
  @Normalize _ DoubleModel.DoubleVec
    (mkTuple3 PrimFloat.zero PrimFloat.zero (DoubleModel.float_of_Z (2 ^ 800)))
  = mkTuple3 PrimFloat.zero PrimFloat.zero PrimFloat.zero /\
  ~ Normalize_returns_unit DoubleModel.DoubleFloat DoubleModel.DoubleVec.
Proof.
  split; [reflexivity |]. intros H.
  specialize (H (mkTuple3 PrimFloat.zero PrimFloat.zero
                          (DoubleModel.float_of_Z (2 ^ 800))) eq_refl).
  discriminate H.
Qed.

(** *** Classification *)

Lemma Tuple3_ne_scale_minus_one (F : FloatOps) (v : Tuple3 Float) :
  negation_keeps_nonzero F ->
  Tuple3_ne (Tuple3_scale v (Float_lit (-1))) Tuple3_zero = Tuple3_ne v Tuple3_zero.
Proof.
  intros Hneg. unfold Tuple3_ne, Tuple3_scale, Tuple3_zero. cbn [vx vy vz].
  rewrite !Hneg. reflexivity.
Qed.

Lemma Tuple3_ne_zero_zero (F : FloatOps) :
  zero_equals_zero F -> Tuple3_ne Tuple3_zero Tuple3_zero = false.
Proof.
  intros H0. unfold Tuple3_ne, Tuple3_zero. cbn [vx vy vz].
  unfold zero_equals_zero in H0. rewrite H0. reflexivity.
Qed.

Lemma SurfaceInteraction_ctor_IsSurface (F : FloatOps) (V : VecOps F)
    pi0 uv0 wo0 dpdu0 dpdv0 dndu0 dndv0 time0 flipNormal :
  negation_keeps_nonzero F ->
  Intr.IsSurfaceInteraction
    (Intr.si_base (Intr.SurfaceInteraction_ctor pi0 uv0 wo0 dpdu0 dpdv0 dndu0 dndv0
                                                time0 flipNormal))
  = Tuple3_ne (Normalize (Cross dpdu0 dpdv0)) Tuple3_zero.
Proof.
  intros Hneg. destruct flipNormal.
  - exact (Tuple3_ne_scale_minus_one F _ Hneg).
  - reflexivity.
Qed.

(** C4 (as amended): [IsSurfaceInteraction] is true exactly when the normal
    [n] differs from [(0, 0, 0)], and [IsMediumInteraction] is its negation.
    Where [0 != 0] is false, every [MediumInteraction] built by a constructor
    is classified as a medium interaction.  Where negating a number keeps it
    non-zero, a [SurfaceInteraction] built by a constructor is classified as a
    surface interaction exactly when [Normalize(Cross(dpdu, dpdv))] differs
    from the zero vector, with [flipNormal] set or not; that is the case for
    every [dpdu], [dpdv] whose cross product is not the zero vector where
    [Normalize] returns vectors of unit length, as it does in exact
    arithmetic. *)
Theorem Interaction_classified_by_normal (F : FloatOps) (V : VecOps F) :
  (forall i : Intr.Interaction,
      Intr.IsSurfaceInteraction i = Tuple3_ne (Intr.n i) Tuple3_zero /\
      Intr.IsMediumInteraction i = negb (Intr.IsSurfaceInteraction i)) /\
  (zero_equals_zero F ->
   Intr.IsMediumInteraction (Intr.mi_base Intr.MediumInteraction_default) = true /\
   forall p wo0 time0 medium0 phase0,
     Intr.IsMediumInteraction
       (Intr.mi_base (Intr.MediumInteraction_ctor p wo0 time0 medium0 phase0)) = true /\
     Intr.IsSurfaceInteraction
       (Intr.mi_base (Intr.MediumInteraction_ctor p wo0 time0 medium0 phase0)) = false) /\
  (negation_keeps_nonzero F ->
   forall pi0 uv0 wo0 dpdu0 dpdv0 dndu0 dndv0 time0 flipNormal faceIndex0,
     Intr.IsSurfaceInteraction
       (Intr.si_base (Intr.SurfaceInteraction_ctor pi0 uv0 wo0 dpdu0 dpdv0 dndu0 dndv0
                                                   time0 flipNormal))
     = Tuple3_ne (Normalize (Cross dpdu0 dpdv0)) Tuple3_zero /\
     Intr.IsSurfaceInteraction
       (Intr.si_base (Intr.SurfaceInteraction_ctor_face pi0 uv0 wo0 dpdu0 dpdv0 dndu0
                                                        dndv0 time0 flipNormal faceIndex0))
     = Tuple3_ne (Normalize (Cross dpdu0 dpdv0)) Tuple3_zero) /\
  (negation_keeps_nonzero F -> unit_vectors_are_nonzero F ->
   Normalize_returns_unit F V ->
   forall pi0 uv0 wo0 dpdu0 dpdv0 dndu0 dndv0 time0 flipNormal,
     Tuple3_ne (Cross dpdu0 dpdv0) Tuple3_zero = true ->
     Intr.IsSurfaceInteraction
       (Intr.si_base (Intr.SurfaceInteraction_ctor pi0 uv0 wo0 dpdu0 dpdv0 dndu0 dndv0
                                                   time0 flipNormal)) = true /\
     Intr.IsMediumInteraction
       (Intr.si_base (Intr.SurfaceInteraction_ctor pi0 uv0 wo0 dpdu0 dpdv0 dndu0 dndv0
                                                   time0 flipNormal)) = false).
Proof.
  split; [| split; [| split]].
  - intros i. split; reflexivity.
  - intros H0. pose proof (Tuple3_ne_zero_zero F H0) as Hz.
    unfold Intr.IsMediumInteraction, Intr.IsSurfaceInteraction.
    split.
    + change (negb (Tuple3_ne Tuple3_zero Tuple3_zero) = true).
      rewrite Hz. reflexivity.
    + intros p wo0 time0 medium0 phase0.
      change (negb (Tuple3_ne Tuple3_zero Tuple3_zero) = true /\
              Tuple3_ne Tuple3_zero Tuple3_zero = false).
      rewrite Hz. split; reflexivity.
  - intros Hneg pi0 uv0 wo0 dpdu0 dpdv0 dndu0 dndv0 time0 flipNormal faceIndex0.
    split.
    + apply SurfaceInteraction_ctor_IsSurface. exact Hneg.
    + change (Intr.si_base
                (Intr.SurfaceInteraction_ctor_face pi0 uv0 wo0 dpdu0 dpdv0 dndu0
                   dndv0 time0 flipNormal faceIndex0))
        with (Intr.si_base
                (Intr.SurfaceInteraction_ctor pi0 uv0 wo0 dpdu0 dpdv0 dndu0
                   dndv0 time0 flipNormal)).
      apply SurfaceInteraction_ctor_IsSurface. exact Hneg.
  - intros Hneg Hunit Hnorm pi0 uv0 wo0 dpdu0 dpdv0 dndu0 dndv0 time0 flipNormal Hc.
    unfold Intr.IsMediumInteraction.
    rewrite (SurfaceInteraction_ctor_IsSurface F V _ _ _ _ _ _ _ _ _ Hneg).
    rewrite (Hunit _ (Hnorm _ Hc)). split; reflexivity.
Qed.

(** The theorem in exact arithmetic: the surface interaction of a patch with
    tangents [(1, 0, 0)] and [(0, 1, 0)], its normal flipped, is a surface
    interaction, and a medium interaction built by the constructor is a
    medium interaction. *)
Lemma Interaction_classified_by_normal_witness :
  Intr.IsSurfaceInteraction
    (Intr.si_base
       (@Intr.SurfaceInteraction_ctor ExactModel.RealFloat ExactModel.RealVec
          Point3fi_zero Tuple2_zero
          (mkTuple3 0%R 0%R 1%R) (mkTuple3 1%R 0%R 0%R) (mkTuple3 0%R 1%R 0%R)
          Tuple3_zero Tuple3_zero 0%R true)) = true /\
  Intr.IsMediumInteraction
    (Intr.si_base
       (@Intr.SurfaceInteraction_ctor ExactModel.RealFloat ExactModel.RealVec
          Point3fi_zero Tuple2_zero
          (mkTuple3 0%R 0%R 1%R) (mkTuple3 1%R 0%R 0%R) (mkTuple3 0%R 1%R 0%R)
          Tuple3_zero Tuple3_zero 0%R true)) = false /\
  Intr.IsMediumInteraction
    (Intr.mi_base
       (@Intr.MediumInteraction_ctor ExactModel.RealFloat Tuple3_zero
          (mkTuple3 0%R 0%R 1%R) 0%R
          TaggedPtr.TaggedPointer_nullptr TaggedPtr.TaggedPointer_nullptr))
  = true.
Proof.
  destruct (Interaction_classified_by_normal ExactModel.RealFloat ExactModel.RealVec)
    as (_ & Hm & _ & Hs).
  destruct (Hm RealFloat_zero_equals_zero) as (_ & Hm').
  destruct (Hs RealFloat_negation_keeps_nonzero RealFloat_unit_vectors_are_nonzero
               RealVec_Normalize_returns_unit
               (@Point3fi_zero ExactModel.RealFloat) (@Tuple2_zero ExactModel.RealFloat)
               (mkTuple3 0%R 0%R 1%R) (mkTuple3 1%R 0%R 0%R) (mkTuple3 0%R 1%R 0%R)
               (@Tuple3_zero ExactModel.RealFloat) (@Tuple3_zero ExactModel.RealFloat)
               0%R true) as (Hs1 & Hs2).
  - apply RealFloat_Tuple3_ne_zero. cbn. right. right. lra.
  - split; [exact Hs1 | split; [exact Hs2 |]].
    apply (Hm' (@Tuple3_zero ExactModel.RealFloat) (mkTuple3 0%R 0%R 1%R) 0%R
               TaggedPtr.TaggedPointer_nullptr TaggedPtr.TaggedPointer_nullptr).
Defined.

(** C4 as stated fails in double precision: the tangents [(2 ^ 400, 0, 0)]
    and [(0, 2 ^ 400, 0)] have the cross product [(0, 0, 2 ^ 800)], which is
    not the zero vector; its squared length overflows, [Normalize] divides
    by an infinite length, and the constructor stores the normal
    [(0, 0, 0)]: the [SurfaceInteraction] it builds is classified as a medium
    interaction, with [flipNormal] set or not. *)
Lemma SurfaceInteraction_of_huge_patch_is_medium :
  @Tuple3_ne DoubleModel.DoubleFloat
    (@Cross _ DoubleModel.DoubleVec DoubleModel.huge_dpdu DoubleModel.huge_dpdv)
    Tuple3_zero = true /\
  Intr.n (Intr.si_base (DoubleModel.huge_patch false))
  = mkTuple3 PrimFloat.zero PrimFloat.zero PrimFloat.zero /\
  Intr.IsSurfaceInteraction (Intr.si_base (DoubleModel.huge_patch false)) = false /\
  Intr.IsMediumInteraction (Intr.si_base (DoubleModel.huge_patch false)) = true /\
  Intr.IsSurfaceInteraction (Intr.si_base (DoubleModel.huge_patch true)) = false.
Proof.
  repeat split; reflexivity.
Qed.

(** *** The stored direction *)




(* ================================================================== *)
(** * Further properties of the tagged pointer *)

Section DispatchIndexing.
Context {Ty R : Type} (func : Ty -> Z -> R).

(** Closes the goal for a pack of known size and an index past its end. *)
Ltac past_the_end :=
  repeat match goal with
         | |- context [?a <? ?b] => rewrite (proj2 (Z.ltb_ge a b)) by lia
         | |- context [0 =? ?b] => rewrite (proj2 (Z.eqb_neq 0 b)) by lia
         end;
  rewrite ?andb_false_r; reflexivity.

Lemma detail_Dispatch_past_end (pack : list Ty) (p : Z) (k : nat) :
  (length pack <= k)%nat ->
  detail_Dispatch func pack p (Z.of_nat k) = None.
Proof.
  assert (Hm : exists m, (length pack <= m)%nat) by (eexists; reflexivity).
  destruct Hm as [m Hle]. revert pack k Hle. induction m as [| m IH]; intros pack k Hle Hk.
  - destruct pack; [reflexivity | cbn in Hle; lia].
  - destruct pack as [| T0 [| T1 [| T2 [| T3 [| T4 [| T5 [| T6 [| T7 [| T8 Ts]]]]]]]]];
      cbn [length] in Hk;
      try solve [reflexivity | cbn [detail_Dispatch]; past_the_end].
    rewrite detail_Dispatch_large by lia.
    replace (Z.of_nat k - 8) with (Z.of_nat (k - 8)) by lia.
    apply IH; cbn [length] in Hle |- *; lia.
Qed.

Lemma detail_DispatchCPU_past_end (pack : list Ty) (p : Z) (k : nat) :
  (length pack <= k)%nat ->
  detail_DispatchCPU func pack p (Z.of_nat k) = None.
Proof.
  assert (Hm : exists m, (length pack <= m)%nat) by (eexists; reflexivity).
  destruct Hm as [m Hle]. revert pack k Hle. induction m as [| m IH]; intros pack k Hle Hk.
  - destruct pack; [reflexivity | cbn in Hle; lia].
  - destruct pack as [| T0 [| T1 [| T2 [| T3 [| T4 [| T5 [| T6 [| T7 [| T8 Ts]]]]]]]]];
      cbn [length] in Hk;
      try solve [reflexivity | cbn [detail_DispatchCPU]; past_the_end].
    rewrite detail_DispatchCPU_large by lia.
    replace (Z.of_nat k - 8) with (Z.of_nat (k - 8)) by lia.
    apply IH; cbn [length] in Hle |- *; lia.
Qed.

Lemma detail_Dispatch_negative (pack : list Ty) (p index : Z) :
  index < 0 ->
  detail_Dispatch func pack p index = None /\
  detail_DispatchCPU func pack p index = None.
Proof.
  intros Hneg.
  assert (Hge : (index >=? 0) = false).
  { destruct (Z.geb_spec index 0); [lia | reflexivity]. }
  assert (H0 : (0 =? index) = false) by (apply Z.eqb_neq; lia).
  destruct pack as [| T0 [| T1 [| T2 [| T3 [| T4 [| T5 [| T6 [| T7 [| T8 Ts]]]]]]]]];
    cbn [detail_Dispatch detail_DispatchCPU]; rewrite ?Hge, ?H0; split; reflexivity.
Qed.

End DispatchIndexing.

(** The two families of overloads as indexing into the pack. *)
Lemma detail_Dispatch_indexing
    (Ty R : Type) (func : Ty -> Z -> R) (pack : list Ty) (p index : Z) :
  detail_Dispatch func pack p index
  = (if index <? 0 then None
     else option_map (fun T => func T p) (nth_error pack (Z.to_nat index))) /\
  detail_DispatchCPU func pack p index
  = (if index <? 0 then None
     else option_map (fun T => func T p) (nth_error pack (Z.to_nat index))).
Proof.
  destruct (Z.ltb_spec index 0) as [Hneg | Hpos].
  - apply detail_Dispatch_negative. exact Hneg.
  - rewrite <- (Z2Nat.id index Hpos) at 1 3.
    destruct (nth_error pack (Z.to_nat index)) as [T |] eqn:Hnth; cbn [option_map].
    + split; [apply detail_Dispatch_nth | apply detail_DispatchCPU_nth]; exact Hnth.
    + apply nth_error_None in Hnth.
      split; [apply detail_Dispatch_past_end | apply detail_DispatchCPU_past_end];
        exact Hnth.
Qed.

(** The member functions [Dispatch] and [DispatchCPU], by cases on the
    handle. *)
Lemma Dispatch_tag_cases
    (Ty R : Type) (Types : list Ty) (func : Ty -> Z -> R) (h : TaggedPointer) :
  Dispatch Types func h
  = (if (ptr h =? 0) || (Tag h =? 0) then None
     else option_map (fun T => func T (ptr h))
                     (nth_error Types (Z.to_nat (Tag h - 1)))) /\
  DispatchCPU Types func h = Dispatch Types func h.
Proof.
  unfold Dispatch, DispatchCPU.
  destruct (detail_Dispatch_indexing Ty R func Types (ptr h)
              (int_of_unsigned (wrap32 (Tag h - 1)))) as [HD HC].
  rewrite HD, HC. split; [| reflexivity].
  destruct (ptr h =? 0); [reflexivity |]. cbn [orb].
  pose proof (Tag_range h) as Ht.
  destruct (Z.eqb_spec (Tag h) 0) as [H0 | Hn0].
  - rewrite H0. reflexivity.
  - assert (Hidx : int_of_unsigned (wrap32 (Tag h - 1)) = Tag h - 1).
    { unfold wrap32. rewrite Z.mod_small by lia.
      unfold int_of_unsigned. rewrite (proj2 (Z.ltb_lt _ _)) by lia. reflexivity. }
    rewrite Hidx. rewrite (proj2 (Z.ltb_ge _ _)) by lia. reflexivity.
Qed.

(** X1: the overloads of [detail::Dispatch], and those of
    [detail::DispatchCPU], together implement indexing into the pack: for
    every pack, pointer and index the visitor is called at the type at position
    [index], and a negative index or one past the end of the pack fails a
    check, also in the overload for more than 8 types, which checks only
    [index >= 0] itself. *)
Theorem detail_Dispatch_is_pack_indexing
    (Ty R : Type) (func : Ty -> Z -> R) (pack : list Ty) (p index : Z) :
  detail_Dispatch func pack p index
  = (if index <? 0 then None
     else option_map (fun T => func T p) (nth_error pack (Z.to_nat index))) /\
  detail_DispatchCPU func pack p index
  = (if index <? 0 then None
     else option_map (fun T => func T p) (nth_error pack (Z.to_nat index))).
Proof.
  destruct (Z.ltb_spec index 0) as [Hneg | Hpos].
  - apply detail_Dispatch_negative. exact Hneg.
  - rewrite <- (Z2Nat.id index Hpos) at 1 3.
    destruct (nth_error pack (Z.to_nat index)) as [T |] eqn:Hnth; cbn [option_map].
    + split; [apply detail_Dispatch_nth | apply detail_DispatchCPU_nth]; exact Hnth.
    + apply nth_error_None in Hnth.
      split; [apply detail_Dispatch_past_end | apply detail_DispatchCPU_past_end];
        exact Hnth.
Qed.

(** X2: [Dispatch] and [DispatchCPU] on an arbitrary handle: they abort when
    the pointer part is null or the tag is 0, and otherwise call the visitor
    at the type at position [Tag() - 1] with the pointer part, aborting when
    the tag exceeds the size of the pack. *)
Theorem Dispatch_by_tag
    (Ty R : Type) (Types : list Ty) (func : Ty -> Z -> R) (h : TaggedPointer) :
  Dispatch Types func h
  = (if (ptr h =? 0) || (Tag h =? 0) then None
     else option_map (fun T => func T (ptr h))
                     (nth_error Types (Z.to_nat (Tag h - 1)))) /\
  DispatchCPU Types func h = Dispatch Types func h.
Proof.
  unfold Dispatch, DispatchCPU.
  destruct (detail_Dispatch_indexing Ty R func Types (ptr h)
              (int_of_unsigned (wrap32 (Tag h - 1)))) as [HD HC].
  rewrite HD, HC. split; [| reflexivity].
  destruct (ptr h =? 0); [reflexivity |]. cbn [orb].
  pose proof (Tag_range h) as Ht.
  destruct (Z.eqb_spec (Tag h) 0) as [H0 | Hn0].
  - rewrite H0. reflexivity.
  - assert (Hidx : int_of_unsigned (wrap32 (Tag h - 1)) = Tag h - 1).
    { unfold wrap32. rewrite Z.mod_small by lia.
      unfold int_of_unsigned. rewrite (proj2 (Z.ltb_lt _ _)) by lia. reflexivity. }
    rewrite Hidx. rewrite (proj2 (Z.ltb_ge _ _)) by lia. reflexivity.
Qed.

Section ConstructedFacts.
Context {Ty : Type} (Ty_eq_dec : forall a b : Ty, {a = b} + {a <> b}).
Variable Types : list Ty.

(** The constructors keep [bits] within 64 bits. *)
Lemma Constructed_bits_range (h : TaggedPointer) :
  Constructed Ty_eq_dec Types h -> 0 <= bits h < 2 ^ 64.
Proof.
  intros Hc. induction Hc as [| | t Hc IH | T p h Hh].
  - cbn. lia.
  - cbn. lia.
  - exact IH.
  - destruct (from_ptr_inv _ _ _ _ _ Hh) as (k & Hk & Hp).
    unfold TaggedPointer_from_ptr in Hh.
    rewrite (proj2 (fits_ptrMask p) Hp), (TypeIndex_of_IndexOf _ _ _ _ Hk) in Hh.
    destruct h as [b]. cbn [bits].
    assert (Hb : b = Z.lor p (wrap64 (Z.shiftl (wrap32 (1 + Z.of_nat k)) tagShift)))
      by congruence.
    rewrite Hb, bits_of_from_ptr by exact Hp.
    pose proof (Z.mod_pos_bound (wrap32 (1 + Z.of_nat k)) (2 ^ 7) ltac:(lia)). lia.
Qed.

(** A 64-bit handle is its pointer field plus its tag field. *)
Lemma bits_split (h : TaggedPointer) :
  0 <= bits h < 2 ^ 64 -> bits h = ptr h + Tag h * 2 ^ 57.
Proof.
  intros Hr. rewrite ptr_mod, Tag_div_mod.
  assert (Hq : 0 <= bits h / 2 ^ 57 < 2 ^ 7).
  { split; [apply Z.div_pos; lia |].
    apply Z.div_lt_upper_bound; [lia |]. change (2 ^ 57 * 2 ^ 7) with (2 ^ 64). lia. }
  rewrite (Z.mod_small (bits h / 2 ^ 57)) by exact Hq.
  pose proof (Z.div_mod (bits h) (2 ^ 57) ltac:(lia)). lia.
Qed.

Lemma ptr_range (h : TaggedPointer) : 0 <= ptr h < 2 ^ 57.
Proof. rewrite ptr_mod. apply Z.mod_pos_bound. lia. Qed.

End ConstructedFacts.

(** X3: two handles produced by the public constructors compare equal under
    [operator==] exactly when they have the same tag and the same pointer
    part; each is the sum of its pointer part and its tag shifted by 57. *)
Theorem handle_equality_is_tag_and_pointer
    (Ty : Type) (Ty_eq_dec : forall a b : Ty, {a = b} + {a <> b})
    (Types : list Ty) (h1 h2 : TaggedPointer) :
  Constructed Ty_eq_dec Types h1 ->
  Constructed Ty_eq_dec Types h2 ->
  bits h1 = ptr h1 + Tag h1 * 2 ^ 57 /\
  (eqb h1 h2 = true <-> Tag h1 = Tag h2 /\ ptr h1 = ptr h2) /\
  (neqb h1 h2 = negb (eqb h1 h2)).
Proof.
  intros H1 H2.
  pose proof (bits_split h1 (Constructed_bits_range _ _ _ H1)) as E1.
  pose proof (bits_split h2 (Constructed_bits_range _ _ _ H2)) as E2.
  split; [exact E1 |]. split; [| reflexivity].
  unfold eqb. rewrite Z.eqb_eq. split.
  - intros Heq. unfold Tag, ptr. rewrite Heq. split; reflexivity.
  - intros [Ht Hp]. rewrite E1, E2, Ht, Hp. reflexivity.
Qed.

(** The theorem at two handles of the [Light] pack for the same address. *)
Lemma handle_equality_witness :
  eqb (mkTP (4096 + 5 * 2 ^ 57)) (mkTP (4096 + 6 * 2 ^ 57)) = true <->
  Tag (mkTP (4096 + 5 * 2 ^ 57)) = Tag (mkTP (4096 + 6 * 2 ^ 57)) /\
  ptr (mkTP (4096 + 5 * 2 ^ 57)) = ptr (mkTP (4096 + 6 * 2 ^ 57)).
Proof.
  apply (handle_equality_is_tag_and_pointer LightClass LightClass_eq_dec LightTypes).
  - apply (Constructed_from_ptr _ _ _ SpotLight 4096). reflexivity.
  - apply (Constructed_from_ptr _ _ _ DiffuseAreaLight 4096). reflexivity.
Defined.

(** X4: [operator<] is a strict total order that agrees with [operator==]
    (exactly one of [a < b], [a == b], [b < a] holds, and it is transitive);
    on handles produced by the public constructors it orders by tag first and
    by pointer among handles of the same tag. *)
Theorem handle_order_is_tag_then_pointer
    (Ty : Type) (Ty_eq_dec : forall a b : Ty, {a = b} + {a <> b})
    (Types : list Ty) (h1 h2 : TaggedPointer) :
  Constructed Ty_eq_dec Types h1 ->
  Constructed Ty_eq_dec Types h2 ->
  (ltb h1 h2 = true <->
   Tag h1 < Tag h2 \/ (Tag h1 = Tag h2 /\ ptr h1 < ptr h2)) /\
  (ltb h1 h2 = true /\ eqb h1 h2 = false /\ ltb h2 h1 = false \/
   ltb h1 h2 = false /\ eqb h1 h2 = true /\ ltb h2 h1 = false \/
   ltb h1 h2 = false /\ eqb h1 h2 = false /\ ltb h2 h1 = true) /\
  (forall h3, ltb h1 h2 = true -> ltb h2 h3 = true -> ltb h1 h3 = true).
Proof.
  intros H1 H2.
  pose proof (bits_split h1 (Constructed_bits_range _ _ _ H1)) as E1.
  pose proof (bits_split h2 (Constructed_bits_range _ _ _ H2)) as E2.
  pose proof (ptr_range h1) as P1. pose proof (ptr_range h2) as P2.
  pose proof (Tag_range h1) as T1. pose proof (Tag_range h2) as T2.
  unfold ltb, eqb. split; [| split].
  - rewrite Z.ltb_lt, E1, E2. lia.
  - destruct (Z.ltb_spec (bits h1) (bits h2)), (Z.eqb_spec (bits h1) (bits h2)),
      (Z.ltb_spec (bits h2) (bits h1)); try lia; tauto.
  - intros h3. rewrite !Z.ltb_lt. lia.
Qed.

(** The theorem on the lights of the test scene: the point light (tag 1)
    comes before the infinite light (tag 7) whatever their addresses. *)
Lemma handle_order_witness :
  ltb (mkTP (4096 + 1 * 2 ^ 57)) (mkTP (16 + 7 * 2 ^ 57)) = true.
Proof.
  destruct (handle_order_is_tag_then_pointer LightClass LightClass_eq_dec
              LightTypes (mkTP (4096 + 1 * 2 ^ 57)) (mkTP (16 + 7 * 2 ^ 57)))
    as [Hlex _].
  - apply (Constructed_from_ptr _ _ _ PointLight 4096). reflexivity.
  - apply (Constructed_from_ptr _ _ _ UniformInfiniteLight 16). reflexivity.
  - apply Hlex. left. vm_compute. reflexivity.
Defined.

(** X5: for a pack of fewer than [2^32] types and any handle, whatever its
    bits, at most one type of the pack passes [Is<T>()], and none does when
    the tag is 0. *)
Theorem Is_at_most_one_type
    (Ty : Type) (Ty_eq_dec : forall a b : Ty, {a = b} + {a <> b})
    (Types : list Ty) (h : TaggedPointer) :
  Z.of_nat (length Types) < 2 ^ 32 ->
  (forall T U,
      Is Ty_eq_dec Types T h = Some true ->
      Is Ty_eq_dec Types U h = Some true -> T = U) /\
  (Is_nullptr h = true -> forall T, Is Ty_eq_dec Types T h <> Some true).
Proof.
  intros Hlen.
  assert (Hidx : forall T b, Is Ty_eq_dec Types T h = Some b ->
             exists k, IndexOf Ty_eq_dec T Types = Some k /\
                       b = (Tag h =? 1 + Z.of_nat k)).
  { intros T b HIs. unfold Is, TypeIndex in HIs.
    destruct (IndexOf Ty_eq_dec T Types) as [k |] eqn:Hk; [| discriminate HIs].
    pose proof (IndexOf_lt _ _ _ _ Hk) as Hlt.
    exists k. split; [reflexivity |]. cbn [option_map] in HIs.
    unfold wrap32 in HIs. rewrite Z.mod_small in HIs by lia. congruence. }
  split.
  - intros T U HT HU.
    destruct (Hidx T true HT) as (k & Hk & Ek).
    destruct (Hidx U true HU) as (j & Hj & Ej).
    symmetry in Ek, Ej. apply Z.eqb_eq in Ek, Ej.
    assert (k = j) by lia. subst j.
    exact (IndexOf_inj _ _ _ _ _ Hk Hj).
  - unfold Is_nullptr, TypeIndex_nullptr. intros H0 T HT. apply Z.eqb_eq in H0.
    destruct (Hidx T true HT) as (k & _ & Ek).
    symmetry in Ek. apply Z.eqb_eq in Ek. lia.
Qed.

(** The theorem at the [Light] pack and a handle with tag 5: the type at
    position 4 of the pack and [SpotLight] both pass [Is], so they are the
    same type. *)
Lemma Is_at_most_one_type_witness :
  Is LightClass_eq_dec LightTypes (nth 4 LightTypes PointLight)
     (mkTP (4096 + 5 * 2 ^ 57)) = Some true /\
  Is LightClass_eq_dec LightTypes SpotLight (mkTP (4096 + 5 * 2 ^ 57)) = Some true /\
  nth 4 LightTypes PointLight = SpotLight.
Proof.
  split; [reflexivity |]. split; [reflexivity |].
  destruct (Is_at_most_one_type LightClass LightClass_eq_dec LightTypes
              (mkTP (4096 + 5 * 2 ^ 57))) as [Huniq _].
  - cbn. lia.
  - apply Huniq; reflexivity.
Defined.

(** X6: the empty handle (default- or [nullptr]-constructed, for a pack of
    fewer than [2^32] types) converts to [false], passes [Is<T>()] for no
    type of the pack, makes [Cast<T>()], [Dispatch] and [DispatchCPU] abort,
    and [CastOrNullptr<T>()] return [nullptr]. *)
Theorem empty_handle_behaviour
    (Ty : Type) (Ty_eq_dec : forall a b : Ty, {a = b} + {a <> b})
    (Types : list Ty) (h : TaggedPointer) :
  Z.of_nat (length Types) < 2 ^ 32 ->
  h = TaggedPointer_default \/ h = TaggedPointer_nullptr ->
  to_bool h = false /\
  Is_nullptr h = true /\
  (forall T, In T Types ->
             Is Ty_eq_dec Types T h = Some false /\
             Cast Ty_eq_dec Types T h = None /\
             CastOrNullptr Ty_eq_dec Types T h = Some (0, h)) /\
  (forall (R : Type) (func : Ty -> Z -> R),
      Dispatch Types func h = None /\ DispatchCPU Types func h = None).
Proof.
  intros Hlen Hh.
  assert (Eh : h = mkTP 0) by (destruct Hh as [-> | ->]; reflexivity).
  subst h. split; [reflexivity |]. split; [reflexivity |]. split.
  - intros T HIn. destruct (IndexOf_In Ty_eq_dec T Types HIn) as [k Hk].
    pose proof (IndexOf_lt _ _ _ _ Hk) as Hlt.
    assert (HIs : Is Ty_eq_dec Types T (mkTP 0) = Some false).
    { rewrite (Is_of_IndexOf _ _ _ _ _ Hk). f_equal. apply Z.eqb_neq.
      unfold wrap32. rewrite Z.mod_small by lia. change (Tag (mkTP 0)) with 0. lia. }
    unfold Cast, CastOrNullptr. rewrite HIs. repeat split.
  - intros R func. destruct (Dispatch_tag_cases Ty R Types func (mkTP 0)) as [HD HC].
    rewrite HC, HD. split; reflexivity.
Qed.

(** The theorem at the [Light] pack. *)
Lemma empty_handle_witness :
  CastOrNullptr LightClass_eq_dec LightTypes PointLight TaggedPointer_nullptr
  = Some (0, TaggedPointer_nullptr) /\
  Dispatch LightTypes (fun (T : LightClass) (p : Z) => T) TaggedPointer_nullptr = None.
Proof.
  destruct (empty_handle_behaviour LightClass LightClass_eq_dec LightTypes
              TaggedPointer_nullptr) as (_ & _ & HT & HD).
  - cbn. lia.
  - right. reflexivity.
  - split.
    + apply (HT PointLight). cbn. tauto.
    + apply (HD LightClass (fun T _ => T)).
Defined.

(** X7: a handle built from a null pointer to an enumerated type (pack of at
    most 127 types) converts to [false] under [operator bool] although it is
    not the empty handle: it passes [Is<T>()], [Cast<T>()] returns the null
    pointer, it differs from the [nullptr] handle under [operator==], and
    [Dispatch] aborts on it. *)
Theorem typed_null_pointer_handle
    (Ty : Type) (Ty_eq_dec : forall a b : Ty, {a = b} + {a <> b})
    (Types : list Ty) (T : Ty) :
  In T Types ->
  (length Types <= 127)%nat ->
  exists h,
    TaggedPointer_from_ptr Ty_eq_dec Types T 0 = Some h /\
    to_bool h = false /\
    Is Ty_eq_dec Types T h = Some true /\
    Is_nullptr h = false /\
    Cast Ty_eq_dec Types T h = Some 0 /\
    eqb h TaggedPointer_nullptr = false /\
    (forall (R : Type) (func : Ty -> Z -> R),
        Dispatch Types func h = None /\ DispatchCPU Types func h = None).
Proof.
  intros HIn Hlen.
  destruct (IndexOf_In Ty_eq_dec T Types HIn) as [k Hk].
  pose proof (IndexOf_lt _ _ _ _ Hk) as Hklt.
  destruct (small_index_no_wrap k ltac:(lia)) as [Hw32 Hw7].
  destruct (from_ptr_tag_ptr _ _ _ _ 0 Hk ltac:(lia)) as (h & Hh & Htag & Hptr).
  rewrite Hw7 in Htag.
  assert (HIs : Is Ty_eq_dec Types T h = Some true).
  { rewrite (Is_of_IndexOf _ _ _ _ h Hk), Hw32, Htag, Z.eqb_refl. reflexivity. }
  assert (HCast : Cast Ty_eq_dec Types T h = Some 0).
  { unfold Cast. rewrite HIs, Hptr. reflexivity. }
  exists h. split; [exact Hh |]. split; [| split; [exact HIs | split; [| split;
    [exact HCast | split]]]].
  - unfold to_bool. fold (ptr h). rewrite Hptr. reflexivity.
  - unfold Is_nullptr, TypeIndex_nullptr. apply Z.eqb_neq. lia.
  - unfold eqb. apply Z.eqb_neq. intros Hb.
    assert (Tag h = Tag TaggedPointer_nullptr) by (unfold Tag; rewrite Hb; reflexivity).
    change (Tag TaggedPointer_nullptr) with 0 in *. lia.
  - intros R func. destruct (Dispatch_tag_cases Ty R Types func h) as [HD HC].
    rewrite HC, HD, Hptr. split; reflexivity.
Qed.

(** The theorem at the [Light] pack: a null [SpotLight *]. *)
Lemma typed_null_pointer_witness :
  exists h,
    TaggedPointer_from_ptr LightClass_eq_dec LightTypes SpotLight 0 = Some h /\
    to_bool h = false /\
    eqb h TaggedPointer_nullptr = false.
Proof.
  destruct (typed_null_pointer_handle LightClass LightClass_eq_dec LightTypes
              SpotLight) as (h & H1 & H2 & _ & _ & _ & H6 & _).
  - cbn. tauto.
  - cbn. lia.
  - exists h. auto.
Defined.

(* ================================================================== *)
(** * Properties of the cameras *)

(** X8: [Camera::GetFilm()] and [Camera::GetCameraTransform()] on a handle
    with a non-null pointer part and a tag from 1 to 4 return the [film] and
    the [cameraTransform] of the [CameraBase] the pointer refers to, whichever
    of the four camera classes the tag names; on any other handle (null
    pointer part, tag 0, tag above 4) the dispatch aborts. *)
Theorem Camera_GetFilm_by_dispatch
    (F : FloatOps) (CameraTransform : Type)
    (at_ : Z -> Cameras.CameraBase CameraTransform) (camera : Camera) :
  (ptr camera <> 0 -> 1 <= Tag camera <= 4 ->
   Cameras.Camera_GetFilm at_ camera = Some (Cameras.film (at_ (ptr camera))) /\
   Cameras.Camera_GetCameraTransform at_ camera
   = Some (Cameras.cameraTransform (at_ (ptr camera)))) /\
  (ptr camera = 0 \/ Tag camera = 0 \/ 4 < Tag camera ->
   Cameras.Camera_GetFilm at_ camera = None /\
   Cameras.Camera_GetCameraTransform at_ camera = None).
Proof.
  unfold Cameras.Camera_GetFilm, Cameras.Camera_GetCameraTransform.
  rewrite (proj1 (Dispatch_tag_cases _ _ Cameras.CameraTypes _ camera)).
  rewrite (proj1 (Dispatch_tag_cases _ _ Cameras.CameraTypes _ camera)).
  pose proof (Tag_range camera) as Ht.
  split.
  - intros Hp Htag.
    rewrite (proj2 (Z.eqb_neq _ _) Hp).
    rewrite (proj2 (Z.eqb_neq (Tag camera) 0)) by lia. cbn [orb].
    assert (Hc : Tag camera = 1 \/ Tag camera = 2 \/ Tag camera = 3 \/ Tag camera = 4)
      by lia.
    destruct Hc as [-> | [-> | [-> | ->]]]; split; reflexivity.
  - intros [Hp | [H0 | Hbig]].
    + rewrite Hp. split; reflexivity.
    + rewrite H0, orb_true_r. split; reflexivity.
    + destruct ((ptr camera =? 0) || (Tag camera =? 0)); [split; reflexivity |].
      assert (Hn : nth_error Cameras.CameraTypes (Z.to_nat (Tag camera - 1)) = None).
      { apply nth_error_None. cbn [length Cameras.CameraTypes]. lia. }
      rewrite Hn. split; reflexivity.
Qed.

(** The theorem for the camera of the test scene, a [SphericalCamera]. *)
Lemma Camera_GetFilm_witness :
  Cameras.Camera_GetFilm TestBox.camera_at (mkTP (3 * 2 ^ 57 + 2048))
  = Some (mkTP (2 ^ 57 + 512)).
Proof.
  apply (proj1 (Camera_GetFilm_by_dispatch TestScene.RatFloat unit
                  TestBox.camera_at (mkTP (3 * 2 ^ 57 + 2048)))).
  - vm_compute. discriminate.
  - vm_compute. split; discriminate.
Defined.

(* ================================================================== *)
(** * Properties of the BxDF flags *)

Lemma bool_of_int_lor (a b : Z) :
  BxDF.bool_of_int (Z.lor a b) = BxDF.bool_of_int a || BxDF.bool_of_int b.
Proof.
  unfold BxDF.bool_of_int.
  destruct (Z.eqb_spec a 0) as [-> | Ha]; cbn [negb orb].
  - rewrite Z.lor_0_l. reflexivity.
  - apply negb_true_iff, Z.eqb_neq. intros H. apply Z.lor_eq_0_iff in H. tauto.
Qed.

(** X9: each test of [BxDFFlags] on a union of flags is the disjunction of
    the tests on its parts, for [operator|] and for [operator|=], and
    [IsNonSpecular] is [IsDiffuse] or [IsGlossy]. *)
Theorem BxDFFlags_tests_of_union (a b : Z) :
  BxDF.IsReflective (BxDF.or a b) = BxDF.IsReflective a || BxDF.IsReflective b /\
  BxDF.IsTransmissive (BxDF.or a b)
  = BxDF.IsTransmissive a || BxDF.IsTransmissive b /\
  BxDF.IsDiffuse (BxDF.or a b) = BxDF.IsDiffuse a || BxDF.IsDiffuse b /\
  BxDF.IsGlossy (BxDF.or a b) = BxDF.IsGlossy a || BxDF.IsGlossy b /\
  BxDF.IsSpecular (BxDF.or a b) = BxDF.IsSpecular a || BxDF.IsSpecular b /\
  BxDF.IsNonSpecular (BxDF.or a b)
  = BxDF.IsNonSpecular a || BxDF.IsNonSpecular b /\
  BxDF.or_assign a b = BxDF.or a b /\
  BxDF.IsNonSpecular a = BxDF.IsDiffuse a || BxDF.IsGlossy a.
Proof.
  unfold BxDF.IsReflective, BxDF.IsTransmissive, BxDF.IsDiffuse, BxDF.IsGlossy,
    BxDF.IsSpecular, BxDF.IsNonSpecular, BxDF.or, BxDF.and, BxDF.or_assign.
  rewrite !Z.land_lor_distr_l, !Z.land_lor_distr_r, !bool_of_int_lor.
  repeat split.
Qed.

(** X10: the mixed [operator&(BxDFFlags, BxDFReflTransFlags)] asks the same
    question as the tests of [BxDFFlags]: against [Reflection] it is
    [IsReflective], against [Transmission] it is [IsTransmissive], against
    [All] (which is [Reflection | Transmission]) it is their disjunction, and
    against [Unset] it is never set. *)
Theorem BxDFFlags_and_ReflTrans (f : Z) :
  BxDF.bool_of_int (BxDF.and_ReflTrans f BxDF.ReflTrans.Reflection)
  = BxDF.IsReflective f /\
  BxDF.bool_of_int (BxDF.and_ReflTrans f BxDF.ReflTrans.Transmission)
  = BxDF.IsTransmissive f /\
  BxDF.bool_of_int (BxDF.and_ReflTrans f BxDF.ReflTrans.All)
  = BxDF.IsReflective f || BxDF.IsTransmissive f /\
  BxDF.bool_of_int (BxDF.and_ReflTrans f BxDF.ReflTrans.Unset) = false /\
  BxDF.ReflTrans_or BxDF.ReflTrans.Reflection BxDF.ReflTrans.Transmission
  = BxDF.ReflTrans.All.
Proof.
  split; [reflexivity |]. split; [reflexivity |]. split; [| split].
  - unfold BxDF.and_ReflTrans, BxDF.ReflTrans.All, BxDF.IsReflective,
      BxDF.IsTransmissive, BxDF.and.
    rewrite Z.land_lor_distr_r. apply bool_of_int_lor.
  - unfold BxDF.and_ReflTrans, BxDF.ReflTrans.Unset. rewrite Z.land_0_r. reflexivity.
  - reflexivity.
Qed.

(** X11: a [BxDFFlags] value made of the five basic flags (from [Unset] to
    [All]) is determined by the answers to the five basic tests: it is the
    union of the flags whose test it passes; masking it with [All] changes
    nothing; it is [Unset] exactly when it passes none. *)
Theorem BxDFFlags_determined_by_tests (f : Z) :
  BxDF.Unset <= f <= BxDF.All ->
  f = BxDF.of_tests (BxDF.IsReflective f) (BxDF.IsTransmissive f) (BxDF.IsDiffuse f)
                    (BxDF.IsGlossy f) (BxDF.IsSpecular f) /\
  BxDF.and f BxDF.All = f /\
  (f = BxDF.Unset <->
   BxDF.IsReflective f = false /\ BxDF.IsTransmissive f = false /\
   BxDF.IsDiffuse f = false /\ BxDF.IsGlossy f = false /\
   BxDF.IsSpecular f = false).
Proof.
  change BxDF.Unset with 0. change BxDF.All with 31. intros Hr.
  rewrite <- (Z2Nat.id f) by lia.
  assert (Hn : (Z.to_nat f < 32)%nat) by lia.
  remember (Z.to_nat f) as k eqn:Hk. clear Hk Hr f.
  do 32 (destruct k as [| k];
         [vm_compute; repeat split; intros; try reflexivity; try discriminate;
          repeat match goal with H : _ /\ _ |- _ => destruct H end;
          try discriminate |]).
  lia.
Qed.

(** The theorem at [GlossyTransmission]. *)
Lemma BxDFFlags_determined_witness :
  BxDF.GlossyTransmission = BxDF.of_tests false true false true false.
Proof.
  apply (BxDFFlags_determined_by_tests BxDF.GlossyTransmission).
  vm_compute. split; discriminate.
Defined.

(** X12: [operator!] on [TransportMode] swaps the two modes: it never returns
    its argument and applying it twice gives the argument back. *)
Theorem TransportMode_not_involutive (mode : BxDF.TransportMode) :
  BxDF.TransportMode_not (BxDF.TransportMode_not mode) = mode /\
  BxDF.TransportMode_not mode <> mode.
Proof. destruct mode; split; try reflexivity; discriminate. Qed.

(* ================================================================== *)
(** * Further properties of the integrators *)

(** X13: for a [RandomWalkIntegrator] built by its constructor from a light
    list, a ray that misses the aggregate gets the sum of [Le] over exactly the
    lights of kind [Infinite] of that list, in list order; the other lights
    contribute nothing, so that with no infinite light in the list the result
    is the zero spectrum the sum starts from. *)
Theorem RandomWalk_miss_sums_infinite_lights_of_list
    (F : FloatOps) (V : VecOps F) (Sc : SceneOps F V)
    (maxDepth0 : Z) (camera0 : Camera) (sampler0 : Sampler)
    (aggregate0 : Primitive) (lights0 : list Light)
    (ray : RayDifferential) (sampler : Sampler) (st : Integrators.WalkState)
    (depth : Z) (fuel : nat) :
  let I := fst (Integrators.RandomWalkIntegrator_ctor maxDepth0 camera0 sampler0
                  aggregate0 lights0) in
  Intersect_aggregate aggregate0 ray = None ->
  exists r,
    Integrators.LiRandomWalk (S fuel) I ray sampler st depth = Some r /\
    Integrators.radiance r
    = fold_left
        (fun Le light => Spectrum_add Le (Light_Le light ray (Integrators.lambda st)))
        (filter Integrators.is_infinite lights0) (Spectrum_const (Float_lit 0)) /\
    Integrators.final r = st /\
    ((forall l, In l lights0 -> Light_Type l <> Infinite) ->
     Integrators.radiance r = Spectrum_const (Float_lit 0)).
Proof.
  cbv zeta. intros Hmiss.
  remember (fst (Integrators.RandomWalkIntegrator_ctor maxDepth0 camera0 sampler0
                   aggregate0 lights0)) as I eqn:HI.
  assert (Hinf : Integrators.infiniteLights (Integrators.rw_base I)
                 = filter Integrators.is_infinite lights0).
  { subst I. unfold Integrators.RandomWalkIntegrator_ctor, Integrators.Integrator_ctor.
    rewrite Integrator_visit_fold. reflexivity. }
  assert (Hagg : Integrators.aggregate (Integrators.rw_base I) = aggregate0)
    by (subst I; reflexivity).
  clear HI.
  assert (Hnohit : Integrators.Intersect (Integrators.rw_base I) ray = None).
  { unfold Integrators.Intersect. rewrite Hagg, Hmiss. reflexivity. }
  cbn [Integrators.LiRandomWalk]. rewrite Hnohit.
  eexists. split; [reflexivity |]. cbn [Integrators.radiance Integrators.final].
  unfold Integrators.infinite_Le. rewrite Hinf.
  split; [reflexivity |]. split; [reflexivity |].
  intros Hnone.
  assert (Hnil : filter Integrators.is_infinite lights0 = []).
  { clear -Hnone. induction lights0 as [| l ls IH]; [reflexivity |].
    cbn [filter]. destruct (Integrators.is_infinite l) eqn:Hl.
    - exfalso. apply (Hnone l (or_introl eq_refl)).
      apply LightType_eqb_eq. exact Hl.
    - apply IH. intros l' Hl'. apply Hnone. right. exact Hl'. }
  rewrite Hnil. reflexivity.
Qed.

(** The theorem on the test scene: of its three lights only the two infinite
    ones, emitting 32 and 48, are seen by a ray going up. *)
Lemma RandomWalk_miss_of_list_witness :
  exists r,
    @Integrators.LiRandomWalk _ _ TestScene.Floor 1 (TestScene.walker 3)
      TestScene.ray_up TestScene.sampler TestScene.start 0 = Some r /\
    Integrators.radiance r = 80%Q.
Proof.
  destruct (RandomWalk_miss_sums_infinite_lights_of_list _ _ TestScene.Floor 3
              TestScene.camera TestScene.sampler TestScene.scene TestScene.lights3
              TestScene.ray_up TestScene.sampler TestScene.start 0 0)
    as (r & Hr & Hrad & _).
  - reflexivity.
  - exists r. split; [exact Hr |]. rewrite Hrad. reflexivity.
Defined.

(** X14: with [maxDepth = 0], [Li] returns at once, for any budget of at
    least one activation: the radiance is the infinite lights' sum on a miss
    and the emission at the hit otherwise; [GetBSDF] and the sampler are not
    used ([lambda] and the store are left as they were) and [LiRandomWalk] is
    entered once. *)
Theorem Li_with_maxDepth_0_is_emission_only
    (F : FloatOps) (V : VecOps F) (Sc : SceneOps F V)
    (I : Integrators.RandomWalkIntegrator) (ray : RayDifferential)
    (sampler : Sampler) (st : Integrators.WalkState) (fuel : nat) :
  Integrators.maxDepth I = 0 ->
  exists r,
    Integrators.Li (S fuel) I ray sampler st = Some r /\
    Integrators.radiance r
    = match Integrators.Intersect (Integrators.rw_base I) ray with
      | None => Integrators.infinite_Le (Integrators.rw_base I) ray
                                        (Integrators.lambda st)
      | Some si => Surface_Le (Integrators.intr si) (Tuple3_neg (ray_d ray))
                              (Integrators.lambda st)
      end /\
    Integrators.final r = st /\
    Integrators.activations r = [0].
Proof.
  intros H0. unfold Integrators.Li. cbn [Integrators.LiRandomWalk].
  destruct (Integrators.Intersect (Integrators.rw_base I) ray) as [si |].
  - rewrite H0. cbn [Z.eqb]. eexists. repeat split.
  - eexists. repeat split.
Qed.

(** The theorem on the test scene: a ray that lands on the emitting part of
    the floor, which has a material there. *)
Lemma Li_with_maxDepth_0_witness :
  exists r,
    @Integrators.Li _ _ TestScene.Floor 1 (TestScene.walker 0)
      (TestScene.ray_down (-1) 1) TestScene.sampler TestScene.start = Some r /\
    Integrators.radiance r = 5%Q /\
    Integrators.final r = TestScene.start.
Proof.
  destruct (Li_with_maxDepth_0_is_emission_only _ _ TestScene.Floor
              (TestScene.walker 0) (TestScene.ray_down (-1) 1) TestScene.sampler
              TestScene.start 0) as (r & Hr & Hrad & Hfin & _).
  - reflexivity.
  - exists r. split; [exact Hr |]. split; [| exact Hfin].
    rewrite Hrad. reflexivity.
Defined.

Section ScatteringScene.
Context {F : FloatOps} {V : VecOps F} {Sc : SceneOps F V}.
Import Integrators.
Variable I : RandomWalkIntegrator.
Variable sampler : Sampler.
Hypothesis always_scatters : forall ray st, scatters I sampler ray st = true.

(** One activation that is neither at [maxDepth] nor about to overflow
    [depth] hands over to the next one. *)
Lemma LiRandomWalk_goes_on (fuel : nat) (ray : RayDifferential) (st : WalkState)
    (depth : Z) :
  depth <> maxDepth I ->
  depth + 1 <= INT_MAX ->
  exists ray1 st1 Le fcos,
    LiRandomWalk (S fuel) I ray sampler st depth
    = match LiRandomWalk fuel I ray1 sampler st1 (depth + 1) with
      | None => None
      | Some r =>
          Some (mkWalkResult
                  (Spectrum_add Le
                     (Spectrum_div (Spectrum_mul fcos (radiance r)) uniform_sphere_pdf))
                  (final r) (depth :: activations r))
      end.
Proof.
  intros Hd Hint. pose proof (always_scatters ray st) as Hs.
  unfold scatters in Hs. cbn [LiRandomWalk].
  destruct (Intersect (rw_base I) ray) as [si |]; [| discriminate Hs].
  rewrite (proj2 (Z.eqb_neq _ _) Hd).
  destruct (GetBSDF (intr si) ray (lambda st) (rw_camera I) sampler (store st))
    as [[[bsdf isect1] lam1] store1].
  destruct (Sampler_Get2D sampler store1) as [u store2].
  apply andb_true_iff in Hs. destruct Hs as [Hb Hf]. rewrite Hb, Hf. cbn [negb].
  assert (Hov : (depth + 1 >? INT_MAX) = false).
  { destruct (Z.gtb_spec (depth + 1) INT_MAX); [lia | reflexivity]. }
  rewrite Hov. do 4 eexists. reflexivity.
Qed.

(** With a negative [maxDepth] no activation ever returns. *)
Lemma LiRandomWalk_never_returns (fuel : nat) :
  maxDepth I < 0 ->
  forall ray st depth, 0 <= depth -> LiRandomWalk fuel I ray sampler st depth = None.
Proof.
  intros Hneg. induction fuel as [| fuel IH]; intros ray st depth Hd.
  - reflexivity.
  - destruct (Z.le_gt_cases (depth + 1) INT_MAX) as [Hint | Hov].
    + destruct (LiRandomWalk_goes_on fuel ray st depth) as (ray1 & st1 & Le & fcos & E);
        try lia.
      rewrite E, IH by lia. reflexivity.
    + pose proof (always_scatters ray st) as Hs.
      unfold scatters in Hs. cbn [LiRandomWalk].
      destruct (Intersect (rw_base I) ray) as [si |]; [| discriminate Hs].
      rewrite (proj2 (Z.eqb_neq depth (maxDepth I))) by lia.
      destruct (GetBSDF (intr si) ray (lambda st) (rw_camera I) sampler (store st))
        as [[[bsdf isect1] lam1] store1].
      destruct (Sampler_Get2D sampler store1) as [u store2].
      apply andb_true_iff in Hs. destruct Hs as [Hb Hf]. rewrite Hb, Hf. cbn [negb].
      rewrite (proj2 (Z.gtb_lt _ _)) by lia. reflexivity.
Qed.

(** A walk that starts [m] levels above [maxDepth] makes exactly [m + 1]
    activations. *)
Lemma LiRandomWalk_reaches_maxDepth (m : nat) :
  maxDepth I <= INT_MAX ->
  forall ray st depth,
    0 <= depth -> maxDepth I - depth = Z.of_nat m ->
    exists r, LiRandomWalk (S m) I ray sampler st depth = Some r /\
              activations r = consecutive_from depth (S m) /\
              LiRandomWalk m I ray sampler st depth = None.
Proof.
  intros Hmax. induction m as [| m IH]; intros ray st depth Hd Hm.
  - pose proof (always_scatters ray st) as Hs. unfold scatters in Hs.
    cbn [LiRandomWalk].
    destruct (Intersect (rw_base I) ray) as [si |]; [| discriminate Hs].
    rewrite (proj2 (Z.eqb_eq depth (maxDepth I))) by lia.
    eexists. split; [reflexivity |]. split; [apply consecutive_from_one | reflexivity].
  - destruct (LiRandomWalk_goes_on (S m) ray st depth) as (ray1 & st1 & Le & fcos & E);
      try lia.
    destruct (LiRandomWalk_goes_on m ray st depth) as (ray2 & st2 & Le2 & fcos2 & E2);
      try lia.
    destruct (IH ray1 st1 (depth + 1)) as (r & Hr & Hact & _); try lia.
    destruct (IH ray2 st2 (depth + 1)) as (_ & _ & _ & Hnone); try lia.
    rewrite E, Hr, E2, Hnone.
    eexists. split; [reflexivity |]. split; [| reflexivity].
    cbn [activations]. rewrite Hact. apply consecutive_from_cons.
Qed.

End ScatteringScene.

(** X15: the bound of [maxDepth + 1] nested activations is reached: in a
    scene where every ray hits a surface with a BSDF and every sampled
    direction has a non-zero contribution, [Li] with [maxDepth >= 0] makes
    exactly [maxDepth + 1] activations, at the depths [0, ..., maxDepth], and
    a budget of [maxDepth] activations is not enough for it to return. *)
Theorem Li_makes_maxDepth_plus_1_activations_when_every_ray_scatters
    (F : FloatOps) (V : VecOps F) (Sc : SceneOps F V)
    (I : Integrators.RandomWalkIntegrator) (ray : RayDifferential)
    (sampler : Sampler) (st : Integrators.WalkState) :
  (forall ray' st', Integrators.scatters I sampler ray' st' = true) ->
  0 <= Integrators.maxDepth I <= INT_MAX ->
  exists r,
    Integrators.Li (S (Z.to_nat (Integrators.maxDepth I))) I ray sampler st = Some r /\
    Integrators.activations r
    = map Z.of_nat (seq 0 (S (Z.to_nat (Integrators.maxDepth I)))) /\
    Integrators.Li (Z.to_nat (Integrators.maxDepth I)) I ray sampler st = None.
Proof.
  intros Hs Hmax.
  destruct (LiRandomWalk_reaches_maxDepth I sampler Hs
              (Z.to_nat (Integrators.maxDepth I)) ltac:(lia) ray st 0)
    as (r & Hr & Hact & Hnone); try lia.
  exists r. unfold Integrators.Li. split; [exact Hr |]. split; [| exact Hnone].
  rewrite Hact. unfold Integrators.consecutive_from. apply map_ext. intros i. lia.
Qed.

(** X16: a negative [maxDepth] is never met by the depth test: in a scene
    where every ray scatters, [Li] does not return whatever the budget of
    nested activations (the recursion only ends by exhausting the stack or
    overflowing [depth]). *)
Theorem Li_with_negative_maxDepth_never_returns_when_every_ray_scatters
    (F : FloatOps) (V : VecOps F) (Sc : SceneOps F V)
    (I : Integrators.RandomWalkIntegrator) (ray : RayDifferential)
    (sampler : Sampler) (st : Integrators.WalkState) (fuel : nat) :
  (forall ray' st', Integrators.scatters I sampler ray' st' = true) ->
  Integrators.maxDepth I < 0 ->
  Integrators.Li fuel I ray sampler st = None.
Proof.
  intros Hs Hneg. unfold Integrators.Li.
  apply (LiRandomWalk_never_returns I sampler Hs fuel Hneg). lia.
Qed.

(** Every ray of the closed test scene scatters. *)
Lemma TestBox_scatters (maxDepth0 : Z) (ray : RayDifferential)
    (st : @Integrators.WalkState _ _ TestBox.Box) :
  @Integrators.scatters _ _ TestBox.Box (TestScene.walker maxDepth0)
    TestScene.sampler ray st = true.
Proof. reflexivity. Qed.

(** The theorem on the closed test scene with [maxDepth = 2]. *)
Lemma Li_makes_maxDepth_plus_1_activations_witness :
  exists r,
    @Integrators.Li _ _ TestBox.Box 3 (TestScene.walker 2) TestScene.ray_up
      TestScene.sampler TestBox.start = Some r /\
    Integrators.activations r = [0; 1; 2].
Proof.
  destruct (Li_makes_maxDepth_plus_1_activations_when_every_ray_scatters
              _ _ TestBox.Box (TestScene.walker 2) TestScene.ray_up
              TestScene.sampler TestBox.start) as (r & Hr & Hact & _).
  - intros ray' st'. reflexivity.
  - cbn. unfold INT_MAX. lia.
  - exists r. split; [exact Hr | exact Hact].
Defined.

(** The theorem on the closed test scene with [maxDepth = -1]. *)
Lemma Li_with_negative_maxDepth_witness :
  @Integrators.Li _ _ TestBox.Box 1000 (TestScene.walker (-1)) TestScene.ray_up
    TestScene.sampler TestBox.start = None.
Proof.
  apply (Li_with_negative_maxDepth_never_returns_when_every_ray_scatters
           _ _ TestBox.Box (TestScene.walker (-1)) TestScene.ray_up
           TestScene.sampler TestBox.start 1000).
  - intros ray' st'. reflexivity.
  - cbn. lia.
Defined.

(* ================================================================== *)
(** * Further properties of the interaction records *)

(** X17: a [SurfaceInteraction] built by its constructors has its shading
    geometry equal to its true geometry, normal included whether or not
    [flipNormal] is set (it negates both); it is bound to no material, no
    area light and no medium; setting [flipNormal] changes only the two
    normals, to their product with [-1]. *)
Theorem SurfaceInteraction_ctor_shading_is_geometry
    (F : FloatOps) (V : VecOps F)
    (pi0 : Point3fi) (uv0 : Point2f) (wo0 dpdu0 dpdv0 : Vector3f)
    (dndu0 dndv0 : Normal3f) (time0 : Float) (flipNormal : bool) (faceIndex0 : Z) :
  let s := Intr.SurfaceInteraction_ctor pi0 uv0 wo0 dpdu0 dpdv0 dndu0 dndv0 time0
                                        flipNormal in
  let s0 := Intr.SurfaceInteraction_ctor pi0 uv0 wo0 dpdu0 dpdv0 dndu0 dndv0 time0
                                         false in
  let sf := Intr.SurfaceInteraction_ctor_face pi0 uv0 wo0 dpdu0 dpdv0 dndu0 dndv0
                                              time0 flipNormal faceIndex0 in
  Intr.shading s
  = Intr.mkShading (Intr.n (Intr.si_base s)) (Intr.dpdu s) (Intr.dpdv s)
                   (Intr.dndu s) (Intr.dndv s) /\
  Intr.mediumInterface (Intr.si_base s) = 0 /\
  Intr.medium (Intr.si_base s) = TaggedPointer_nullptr /\
  Intr.material s = TaggedPointer_nullptr /\
  Intr.areaLight s = TaggedPointer_nullptr /\
  Intr.faceIndex s = 0 /\
  Intr.n (Intr.si_base s)
  = (if flipNormal then Tuple3_scale (Intr.n (Intr.si_base s0)) (Float_lit (-1))
     else Intr.n (Intr.si_base s0)) /\
  Intr.set_n (Intr.si_base s) (Intr.n (Intr.si_base s0)) = Intr.si_base s0 /\
  Intr.faceIndex sf = faceIndex0 /\
  Intr.si_base sf = Intr.si_base s /\ Intr.shading sf = Intr.shading s.
Proof.
  cbv zeta. destruct flipNormal; repeat split.
Qed.

(** X18: the constructors of [Interaction] that take no normal, and both
    constructors of [MediumInteraction], build medium interactions: provided
    [0 != 0] is false on [Float], [IsMediumInteraction()] holds and
    [IsSurfaceInteraction()] does not. *)
Theorem normal_less_constructors_build_medium_interactions
    (F : FloatOps) (V : VecOps F)
    (p : Point3f) (wo0 : Vector3f) (time0 : Float) (medium0 : Medium)
    (uv0 : Point2f) (mi : Z) (phase0 : PhaseFunction) (i : Intr.Interaction) :
  Float_neb (Float_lit 0) (Float_lit 0) = false ->
  In i [Intr.Interaction_default;
        Intr.Interaction_medium p wo0 time0 medium0;
        Intr.Interaction_p_uv p uv0;
        Intr.Interaction_p_time_medium p time0 medium0;
        Intr.Interaction_p_mi p mi;
        Intr.Interaction_p_time_mi p time0 mi;
        Intr.mi_base Intr.MediumInteraction_default;
        Intr.mi_base (Intr.MediumInteraction_ctor p wo0 time0 medium0 phase0)] ->
  Intr.IsMediumInteraction i = true /\ Intr.IsSurfaceInteraction i = false.
Proof.
  intros H0 HIn.
  assert (Hn : Intr.n i = Tuple3_zero).
  { cbn [In] in HIn.
    repeat (destruct HIn as [<- | HIn]; [reflexivity |]). contradiction. }
  unfold Intr.IsMediumInteraction, Intr.IsSurfaceInteraction, Tuple3_ne.
  rewrite Hn. cbn [vx vy vz Tuple3_zero]. rewrite H0. split; reflexivity.
Qed.

(** The theorem on rational scalars, for a medium interaction at the
    origin. *)
Lemma normal_less_constructors_witness :
  Intr.IsMediumInteraction
    (Intr.mi_base (@Intr.MediumInteraction_ctor TestScene.RatFloat Tuple3_zero
                     (mkTuple3 0%Q 0%Q 1%Q) 0%Q TaggedPointer_nullptr
                     TaggedPointer_nullptr)) = true.
Proof.
  apply (normal_less_constructors_build_medium_interactions TestScene.RatFloat
           TestScene.RatVec Tuple3_zero (mkTuple3 0%Q 0%Q 1%Q) 0%Q
           TaggedPointer_nullptr Tuple2_zero 0 TaggedPointer_nullptr).
  - reflexivity.
  - cbn [In]. do 7 right. left. reflexivity.
Defined.

(** X19: when [GetMedium()] returns a medium, [GetMedium(w)] returns the same
    medium for every direction [w]; [GetMedium()] aborts exactly on an
    interaction with a medium interface whose two sides differ. *)
Theorem GetMedium_without_direction_agrees
    (F : FloatOps) (V : VecOps F)
    (deref : Z -> MediumInterface) (i : Intr.Interaction) :
  (forall m, Intr.GetMedium0 deref i = Some m ->
             forall w, Intr.GetMedium deref i w = m) /\
  (Intr.GetMedium0 deref i = None <->
   Intr.mediumInterface i <> 0 /\
   eqb (inside (deref (Intr.mediumInterface i)))
       (outside (deref (Intr.mediumInterface i))) = false).
Proof.
  unfold Intr.GetMedium0, Intr.GetMedium.
  destruct (Z.eqb_spec (Intr.mediumInterface i) 0) as [Hz | Hnz]; cbn [negb].
  - split.
    + intros m Hm w. congruence.
    + split; [discriminate | intros [Hc _]; contradiction].
  - destruct (eqb (inside (deref (Intr.mediumInterface i)))
                  (outside (deref (Intr.mediumInterface i)))) eqn:He.
    + split.
      * intros m Hm w. injection Hm as <-.
        unfold eqb in He. apply Z.eqb_eq in He.
        assert (Hio : outside (deref (Intr.mediumInterface i))
                      = inside (deref (Intr.mediumInterface i))).
        { destruct (inside (deref (Intr.mediumInterface i))) as [a],
                   (outside (deref (Intr.mediumInterface i))) as [b].
          cbn [bits] in He. congruence. }
        rewrite Hio. destruct (Float_gtb _ _); reflexivity.
      * split; [discriminate | intros [_ Hc]; discriminate].
    + split.
      * intros m Hm. discriminate Hm.
      * split; [intros _; split; [exact Hnz | reflexivity] | reflexivity].
Qed.

(** A ray spawned from a [MediumInteraction] in direction [d] has
    direction [d], the time of the interaction and the medium the interaction
    was built with, for every [d]; its origin is the offset of the error-free
    point [p] along a zero normal. *)
Lemma SpawnRay_from_MediumInteraction
    (F : FloatOps) (V : VecOps F) (deref : Z -> MediumInterface)
    (p : Point3f) (wo0 : Vector3f) (time0 : Float) (medium0 : Medium)
    (phase0 : PhaseFunction) (d : Vector3f) :
  Intr.SpawnRay deref
    (Intr.mi_base (Intr.MediumInteraction_ctor p wo0 time0 medium0 phase0)) d
  = mkRay (OffsetRayOrigin_pbrt (Point3fi_of_Point3f p) Tuple3_zero d) d time0
          medium0.
Proof. reflexivity. Qed.

(** The theorem on rational scalars: an interaction on an interface at
    address 64 with the medium at address 256 on both sides. *)
Lemma GetMedium_without_direction_witness :
  @Intr.GetMedium TestScene.RatFloat TestScene.RatVec
    (fun _ => mkMediumInterface (mkTP (2 ^ 57 + 256)) (mkTP (2 ^ 57 + 256)))
    (Intr.Interaction_p_mi Tuple3_zero 64) (mkTuple3 0%Q 0%Q 1%Q)
  = mkTP (2 ^ 57 + 256).
Proof.
  apply (proj1 (GetMedium_without_direction_agrees TestScene.RatFloat
                  TestScene.RatVec
                  (fun _ => mkMediumInterface (mkTP (2 ^ 57 + 256))
                                              (mkTP (2 ^ 57 + 256)))
                  (Intr.Interaction_p_mi Tuple3_zero 64))).
  reflexivity.
Defined.

(** X20: [SetIntersectionProperties] on a freshly constructed
    [SurfaceInteraction], when its check on the normals passes, binds the
    material and the area light and leaves the geometry as it was; afterwards
    [GetMedium(w)] is the ray's medium when the primitive has no medium
    interface or one that is not a transition, and otherwise the outside
    medium of the primitive's interface when [Dot(w, n) > 0] and its inside
    medium when not. *)
Theorem SetIntersectionProperties_then_GetMedium
    (F : FloatOps) (V : VecOps F)
    (geb : Float -> Float -> bool) (IsMediumTransition : MediumInterface -> bool)
    (deref : Z -> MediumInterface)
    (pi0 : Point3fi) (uv0 : Point2f) (wo0 dpdu0 dpdv0 : Vector3f)
    (dndu0 dndv0 : Normal3f) (time0 : Float) (flipNormal : bool)
    (mtl : Material) (area : Light) (primMediumInterface : Z) (rayMedium : Medium)
    (s' : Intr.SurfaceInteraction) :
  let s := Intr.SurfaceInteraction_ctor pi0 uv0 wo0 dpdu0 dpdv0 dndu0 dndv0 time0
                                        flipNormal in
  Intr.SetIntersectionProperties geb IsMediumTransition deref s mtl area
                                 primMediumInterface rayMedium = Some s' ->
  Intr.material s' = mtl /\
  Intr.areaLight s' = area /\
  Intr.n (Intr.si_base s') = Intr.n (Intr.si_base s) /\
  Intr.shading s' = Intr.shading s /\
  forall w,
    Intr.GetMedium deref (Intr.si_base s') w
    = if negb (primMediumInterface =? 0) &&
         IsMediumTransition (deref primMediumInterface)
      then if Float_gtb (Dot w (Intr.n (Intr.si_base s))) (Float_lit 0)
           then outside (deref primMediumInterface)
           else inside (deref primMediumInterface)
      else rayMedium.
Proof.
  cbv zeta. unfold Intr.SetIntersectionProperties.
  remember (Intr.SurfaceInteraction_ctor pi0 uv0 wo0 dpdu0 dpdv0 dndu0 dndv0 time0
                                         flipNormal) as s eqn:Es.
  assert (Hmi : Intr.mediumInterface (Intr.si_base s) = 0)
    by (subst s; destruct flipNormal; reflexivity).
  clear Es.
  destruct (geb _ _); [| discriminate].
  intros Hs. injection Hs as <-. cbn [Intr.material Intr.areaLight Intr.si_base
    Intr.shading].
  destruct (Z.eqb_spec primMediumInterface 0) as [Hz | Hnz]; cbn [negb andb].
  - repeat split. intros w. unfold Intr.GetMedium, Intr.set_media.
    cbn [Intr.mediumInterface Intr.medium]. rewrite Hmi. reflexivity.
  - destruct (IsMediumTransition (deref primMediumInterface)).
    + repeat split. intros w. unfold Intr.GetMedium, Intr.set_media.
      cbn [Intr.mediumInterface Intr.medium Intr.n].
      rewrite (proj2 (Z.eqb_neq _ _) Hnz). reflexivity.
    + repeat split. intros w. unfold Intr.GetMedium, Intr.set_media.
      cbn [Intr.mediumInterface Intr.medium]. rewrite Hmi. reflexivity.
Qed.

(** The theorem on the floor of the test scene, hit from above by a ray
    travelling in the medium at address 256; the floor has no medium
    interface. *)
Section SetIntersectionPropertiesExample.
Import TestScene.

Lemma SetIntersectionProperties_witness :
  exists s',
    @Intr.SetIntersectionProperties TestScene.RatFloat TestScene.RatVec
      (fun a b => Qle_bool b a) (fun mi => negb (eqb (inside mi) (outside mi)))
      (fun _ => mkMediumInterface TaggedPointer_nullptr TaggedPointer_nullptr)
      (TestScene.floor_hit (TestScene.ray_down 1 1))
      (mkTP (2 ^ 57 + 128)) TaggedPointer_nullptr 0 (mkTP (2 ^ 57 + 256)) = Some s' /\
    Intr.material s' = mkTP (2 ^ 57 + 128) /\
    @Intr.GetMedium TestScene.RatFloat TestScene.RatVec
      (fun _ => mkMediumInterface TaggedPointer_nullptr TaggedPointer_nullptr)
      (Intr.si_base s') (mkTuple3 0%Q 0%Q 1%Q) = mkTP (2 ^ 57 + 256).
Proof.
  eexists. split; [reflexivity |].
  match goal with
  | |- Intr.material ?s' = _ /\ _ =>
      destruct (SetIntersectionProperties_then_GetMedium TestScene.RatFloat
                  TestScene.RatVec (fun a b => Qle_bool b a)
                  (fun mi => negb (eqb (inside mi) (outside mi)))
                  (fun _ => mkMediumInterface TaggedPointer_nullptr
                                              TaggedPointer_nullptr)
                  (@Point3fi_of_Point3f RatFloat (mkTuple3 (inject_Z 1) (inject_Z 1) 0%Q))
                  (mkTuple2 0%Q 0%Q) (mkTuple3 (-0)%Q (-0)%Q (- -1)%Q)
                  (mkTuple3 1%Q 0%Q 0%Q) (mkTuple3 0%Q 1%Q 0%Q)
                  (@Tuple3_zero RatFloat) (@Tuple3_zero RatFloat) 0%Q false
                  (mkTP (2 ^ 57 + 128)) TaggedPointer_nullptr 0 (mkTP (2 ^ 57 + 256))
                  s' eq_refl) as (Hm & _ & _ & _ & HG)
  end.
  split; [exact Hm |]. rewrite HG. reflexivity.
Defined.

End SetIntersectionPropertiesExample.

(* ================================================================== *)
(** * Handles that can be dispatched *)

(** X21: for a pack of at most 127 types, every handle produced by the
    public constructors that converts to [true] belongs to a type of the pack:
    it passes [Is<T>()], [Cast<T>()] returns its pointer part, and [Dispatch]
    and [DispatchCPU] do not abort and call the visitor at [T] with that
    pointer. *)
Theorem constructed_nonnull_handle_dispatches
    (Ty : Type) (Ty_eq_dec : forall a b : Ty, {a = b} + {a <> b})
    (Types : list Ty) (h : TaggedPointer) :
  (length Types <= 127)%nat ->
  Constructed Ty_eq_dec Types h ->
  to_bool h = true ->
  exists T,
    In T Types /\
    Is Ty_eq_dec Types T h = Some true /\
    Cast Ty_eq_dec Types T h = Some (ptr h) /\
    forall (R : Type) (func : Ty -> Z -> R),
      Dispatch Types func h = Some (func T (ptr h)) /\
      DispatchCPU Types func h = Some (func T (ptr h)).
Proof.
  intros Hlen Hc Hb. induction Hc as [| | t Hc IH | T p h Hh].
  - discriminate Hb.
  - discriminate Hb.
  - apply IH. exact Hb.
  - destruct (from_ptr_inv _ _ _ _ _ Hh) as (k & Hk & Hp).
    pose proof (IndexOf_lt _ _ _ _ Hk) as Hklt.
    destruct (small_index_no_wrap k ltac:(lia)) as [Hw32 Hw7].
    destruct (from_ptr_tag_ptr _ _ _ _ p Hk Hp) as (h' & Hh' & Htag & Hptr).
    assert (h' = h) by congruence. subst h'. rewrite Hw7 in Htag.
    pose proof (IndexOf_nth_error _ _ _ _ Hk) as Hnth.
    assert (HIs : Is Ty_eq_dec Types T h = Some true).
    { rewrite (Is_of_IndexOf _ _ _ _ h Hk), Hw32, Htag, Z.eqb_refl. reflexivity. }
    exists T. split; [exact (nth_error_In _ _ Hnth) |]. split; [exact HIs |]. split.
    + unfold Cast. rewrite HIs. reflexivity.
    + intros R func. destruct (Dispatch_tag_cases Ty R Types func h) as [HD HC].
      rewrite HC, HD.
      unfold to_bool in Hb. fold (ptr h) in Hb. apply negb_true_iff in Hb.
      rewrite Hb, Htag. rewrite (proj2 (Z.eqb_neq _ 0)) by lia. cbn [orb].
      replace (Z.to_nat (1 + Z.of_nat k - 1)) with k by lia.
      rewrite Hnth. split; reflexivity.
Qed.

(** The theorem at the [Light] pack, for a copy of a handle to a
    [DistantLight] at address 4096. *)
Lemma constructed_nonnull_handle_witness :
  exists T,
    Is LightClass_eq_dec LightTypes T (TaggedPointer_copy (mkTP (4096 + 2 * 2 ^ 57)))
    = Some true /\
    Dispatch LightTypes (fun (U : LightClass) (p : Z) => (U, p))
             (TaggedPointer_copy (mkTP (4096 + 2 * 2 ^ 57)))
    = Some (T, 4096).
Proof.
  destruct (constructed_nonnull_handle_dispatches LightClass LightClass_eq_dec
              LightTypes (TaggedPointer_copy (mkTP (4096 + 2 * 2 ^ 57))))
    as (T & _ & HIs & _ & HD).
  - cbn. lia.
  - apply Constructed_copy.
    apply (Constructed_from_ptr _ _ _ DistantLight 4096). reflexivity.
  - reflexivity.
  - exists T. split; [exact HIs |].
    apply (HD (LightClass * Z)%type (fun U p => (U, p))).
Defined.
